(** * chunkymonkey: the game coordinator and the world store

    A shallow embedding of the two Go sources of the repository:
    - the game coordinator ([Game], its player and item directories, the
      radius queries, the broadcasts and the clock), in module [GameModel];
    - the world store bootstrap ([LoadWorldStore], [absXyzFromNbt]), in module
      [WorldStoreModel].

    Go maps are [gmap]s, pointers are addresses into an explicit heap, the
    machine integers are [Z] with their wrap-around written out, and the
    calls that leave the two files (packet writers, the entity manager, the
    tag library, the chunk stores) are the fields of an interface class. *)

From Stdlib Require Import ZArith Lia List Floats Uint63.
From stdpp Require Import gmap strings list fin_maps.

Local Open Scope Z_scope.

Set Warnings "-register-all".

(** Two's-complement reduction of [v] to a signed integer of [bits] bits:
    what Go's fixed-width arithmetic leaves of a mathematical result. *)
Definition wrap (bits v : Z) : Z :=
  (v + 2 ^ (bits - 1)) `mod` 2 ^ bits - 2 ^ (bits - 1).

(** [int64], the type of [Game.time]. *)
Definition wrap64 (v : Z) : Z := wrap 64 v.
Definition minInt64 : Z := - 2 ^ 63.
Definition maxInt64 : Z := 2 ^ 63 - 1.

Module GameModel.

(** ** Data *)

Abbreviation EntityID := Z.
Abbreviation Packet := (list Byte.byte).

(** [ChunkXZ]: the pair of chunk coordinates a position falls in. *)
Record ChunkXZ : Type := { x : Z; z : Z }.

(** The [Entity] struct embedded in players and items; [EntityID] is the
    only field the coordinator reads. *)
Record Entity : Type := { EntityID_of : EntityID }.

(** [*Player] and [*PickupItem] values are addresses of live objects (never
    nil: every method dereferences its argument first); [==] on them is
    equality of addresses. *)
Abbreviation PlayerRef := positive.
Abbreviation ItemRef := positive.

(** What lies outside the coordinator's source file: the types it only
    passes along, the constants [ChunkRadius] and the width of [ChunkCoord],
    the entity manager, the packet writers, and the order in which a
    [range] over the player map yields its entries (unspecified in Go: any
    enumeration of the map). *)
Class Collaborators : Type := {
  XYZ : Type;
  Orientation : Type;
  ItemID : Type;
  ItemData : Type;
  EntityManager : Type;
  EntityManager_zero : EntityManager;
  coord_bits : Z;
  ChunkRadius : Z;
  ToChunkXZ : XYZ -> ChunkXZ;
  AddEntity : EntityManager -> Entity -> EntityManager * Entity;
  RemoveEntity : EntityManager -> Entity -> EntityManager * Entity;
  WriteNamedEntitySpawn :
    EntityID -> string -> XYZ -> Orientation -> ItemID -> Packet;
  WriteDestroyEntity : EntityID -> Packet;
  WriteChatMessage : string -> Packet;
  WriteTimeUpdate : Z -> Packet;
  WritePickupSpawn : EntityID -> XYZ -> ItemData -> Packet + string;
  range_players : gmap Z PlayerRef -> list (Z * PlayerRef);
  range_players_perm : forall m, range_players m ≡ₚ map_to_list m
}.

Section Coordinator.
Context `{C : Collaborators}.

Record Player : Type := {
  Entity_of : Entity;
  name : string;
  position : XYZ;
  orientation : Orientation;
  currentItem : ItemID
}.

Record PickupItem : Type := {
  iEntity : Entity;
  iposition : XYZ;
  idata : ItemData
}.

(** The fields of [Game] that the modelled methods read or write
    ([chunkManager], [mainQueue] and [blockTypes] are set once by [NewGame]
    and not touched by them). *)
Record Game : Type := {
  entityManager : EntityManager;
  players : gmap Z PlayerRef;
  pickupItems : gmap Z ItemRef;
  time : Z
}.

(** What a method call leaves outside the [Game] value. *)
Inductive Event : Type :=
| Transmit (receiver : PlayerRef) (packet : Packet)
| LogPrint (message : string).

(** The state the methods run in: the game, the objects behind the player
    and item pointers, and the calls made so far, oldest first. *)
Record World : Type := {
  game : Game;
  playerAt : PlayerRef -> Player;
  itemAt : ItemRef -> PickupItem;
  out : list Event
}.

(** ** A state monad for the method bodies *)

Definition M (A : Type) : Type := World -> A * World.

#[export] Instance M_ret : MRet M := fun A a w => (a, w).
#[export] Instance M_bind : MBind M :=
  fun A B f m w => let '(a, w') := m w in f a w'.

Definition gets {A : Type} (f : World -> A) : M A := fun w => (f w, w).
Definition modify (f : World -> World) : M unit := fun w => (tt, f w).

Definition set_game (f : Game -> Game) (w : World) : World :=
  {| game := f (game w); playerAt := playerAt w; itemAt := itemAt w;
     out := out w |}.

Definition emit (e : Event) : M unit :=
  modify (fun w => {| game := game w; playerAt := playerAt w;
                      itemAt := itemAt w; out := out w ++ [e] |}).

Definition store_player (r : PlayerRef) (p : Player) (w : World) : World :=
  {| game := game w;
     playerAt := fun r' => if decide (r' = r) then p else playerAt w r';
     itemAt := itemAt w; out := out w |}.

Definition store_item (r : ItemRef) (i : PickupItem) (w : World) : World :=
  {| game := game w; playerAt := playerAt w;
     itemAt := fun r' => if decide (r' = r) then i else itemAt w r';
     out := out w |}.

(** [for v := range l { body }] *)
Fixpoint forM_ {A : Type} (l : list A) (body : A -> M unit) : M unit :=
  match l with
  | [] => mret tt
  | a :: l' => body a;; forM_ l' body
  end.

(** ** The methods *)

(** [player.TransmitPacket(packet)]: hands the bytes to the player's
    connection. *)
Definition TransmitPacket (receiver : PlayerRef) (packet : Packet) : M unit :=
  emit (Transmit receiver packet).

Definition ChunkCoord_add (a b : Z) : Z := wrap coord_bits (a + b).
Definition ChunkCoord_sub (a b : Z) : Z := wrap coord_bits (a - b).

(** The bounds test of [PlayersInRadius], for a player whose chunk is [p]:
<<
    minX := loc.x - ChunkRadius
    minZ := loc.z - ChunkRadius
    maxX := loc.x + ChunkRadius + 1
    maxZ := loc.x + ChunkRadius + 1
    ... if p.x >= minX && p.x <= maxX && p.z >= minZ && p.z <= maxZ
>> *)
Definition in_bounds (loc p : ChunkXZ) : bool :=
  let minX := ChunkCoord_sub (x loc) ChunkRadius in
  let minZ := ChunkCoord_sub (z loc) ChunkRadius in
  let maxX := ChunkCoord_add (ChunkCoord_add (x loc) ChunkRadius) 1 in
  let maxZ := ChunkCoord_add (ChunkCoord_add (x loc) ChunkRadius) 1 in
  (x p >=? minX) && (x p <=? maxX) && (z p >=? minZ) && (z p <=? maxZ).

(** The chunk of the player behind [r], read through the pointer. *)
Definition chunk_of (w : World) (r : PlayerRef) : ChunkXZ :=
  ToChunkXZ (position (playerAt w r)).

(** [PlayersInRadius]: the values the returned channel yields, in order.
    The goroutine behind the channel ranges over [game.players] and sends
    the players that pass the bounds test; none of the loops that drain the
    channel writes to the directory or to a position, so the values are
    those of a filter over the directory at the time of the call. *)
Definition PlayersInRadius (loc : ChunkXZ) : M (list PlayerRef) :=
  gets (fun w =>
    List.filter (fun r => in_bounds loc (chunk_of w r))
                (map snd (range_players (players (game w))))).

Definition PlayersInPlayerRadius (player : PlayerRef) : M (list PlayerRef) :=
  pos ← gets (fun w => chunk_of w player);
  PlayersInRadius pos.

(** [MulticastPacket]: every player of the directory but [except]; [None]
    is the nil pointer, which no player equals. *)
Definition MulticastPacket (packet : Packet) (except : option PlayerRef)
  : M unit :=
  ps ← gets (fun w => map snd (range_players (players (game w))));
  forM_ ps (fun player =>
    if decide (Some player = except) then mret tt
    else TransmitPacket player packet).

Definition SendChatMessage (message : string) : M unit :=
  MulticastPacket (WriteChatMessage message) None.

Definition MulticastChunkPacket (packet : Packet) (loc : ChunkXZ) : M unit :=
  receivers ← PlayersInRadius loc;
  forM_ receivers (fun receiver => TransmitPacket receiver packet).

Definition MulticastRadiusPacket (packet : Packet) (sender : PlayerRef)
  : M unit :=
  receivers ← PlayersInPlayerRadius sender;
  forM_ receivers (fun receiver =>
    if decide (receiver = sender) then mret tt
    else TransmitPacket receiver packet).

(** [WriteNamedEntitySpawn] on the fields of the player behind [r]. *)
Definition spawn_packet (w : World) (r : PlayerRef) : Packet :=
  let p := playerAt w r in
  WriteNamedEntitySpawn (EntityID_of (Entity_of p)) (name p) (position p)
                        (orientation p) (currentItem p).

(** Writes through [&player.Entity] and [&item.Entity]. *)
Definition with_entity (p : Player) (e : Entity) : Player :=
  {| Entity_of := e; name := name p; position := position p;
     orientation := orientation p; currentItem := currentItem p |}.

Definition item_with_entity (i : PickupItem) (e : Entity) : PickupItem :=
  {| iEntity := e; iposition := iposition i; idata := idata i |}.

Definition set_entityManager (em : EntityManager) (g : Game) : Game :=
  {| entityManager := em; players := players g;
     pickupItems := pickupItems g; time := time g |}.

(** [game.entityManager.AddEntity(&player.Entity)]: the manager and the
    entity behind the pointer are both as the call leaves them. *)
Definition AddEntity_player (player : PlayerRef) : M unit :=
  modify (fun w =>
    let p := playerAt w player in
    let '(em, e) := AddEntity (entityManager (game w)) (Entity_of p) in
    store_player player (with_entity p e) (set_game (set_entityManager em) w)).

Definition RemoveEntity_player (player : PlayerRef) : M unit :=
  modify (fun w =>
    let p := playerAt w player in
    let '(em, e) := RemoveEntity (entityManager (game w)) (Entity_of p) in
    store_player player (with_entity p e) (set_game (set_entityManager em) w)).

Definition AddEntity_item (item : ItemRef) : M unit :=
  modify (fun w =>
    let i := itemAt w item in
    let '(em, e) := AddEntity (entityManager (game w)) (iEntity i) in
    store_item item (item_with_entity i e)
               (set_game (set_entityManager em) w)).

Definition set_players (f : gmap Z PlayerRef -> gmap Z PlayerRef) : M unit :=
  modify (set_game (fun g =>
    {| entityManager := entityManager g; players := f (players g);
       pickupItems := pickupItems g; time := time g |})).

Definition set_pickupItems (f : gmap Z ItemRef -> gmap Z ItemRef) : M unit :=
  modify (set_game (fun g =>
    {| entityManager := entityManager g; players := players g;
       pickupItems := f (pickupItems g); time := time g |})).

Definition set_time (f : Z -> Z) : M unit :=
  modify (set_game (fun g =>
    {| entityManager := entityManager g; players := players g;
       pickupItems := pickupItems g; time := f (time g) |})).

(** The second loop of [AddPlayer]: the buffer after writing the spawn of
    every yielded player but [player] itself. *)
Fixpoint spawn_existing (w : World) (player : PlayerRef)
    (existing : list PlayerRef) (buf : Packet) : Packet :=
  match existing with
  | [] => buf
  | e :: rest =>
      if decide (e = player) then spawn_existing w player rest buf
      else spawn_existing w player rest (buf ++ spawn_packet w e)
  end.

(** [AddPlayer]:
<<
    game.entityManager.AddEntity(&player.Entity)
    game.players[player.EntityID] = player
    game.SendChatMessage(fmt.Sprintf("%s has joined", player.name))
    buf := ...; WriteNamedEntitySpawn(buf, player.EntityID, ...)
    game.MulticastRadiusPacket(buf.Bytes(), player)
    buf = ...; for existing := range game.PlayersInPlayerRadius(player) {...}
    player.TransmitPacket(buf.Bytes())
>> *)
Definition AddPlayer (player : PlayerRef) : M unit :=
  AddEntity_player player;;
  id ← gets (fun w => EntityID_of (Entity_of (playerAt w player)));
  set_players (insert id player);;
  nm ← gets (fun w => name (playerAt w player));
  SendChatMessage (nm +:+ " has joined");;
  buf ← gets (fun w => spawn_packet w player);
  MulticastRadiusPacket buf player;;
  existing ← PlayersInPlayerRadius player;
  buf ← gets (fun w => spawn_existing w player existing []);
  TransmitPacket player buf.

(** [RemovePlayer]:
<<
    buf := ...; WriteDestroyEntity(buf, player.EntityID)
    game.MulticastRadiusPacket(buf.Bytes(), player)
    game.players[player.EntityID] = nil, false
    game.entityManager.RemoveEntity(&player.Entity)
    game.SendChatMessage(fmt.Sprintf("%s has left", player.name))
>>
    The assignment of [nil, false] deletes the key. *)
Definition RemovePlayer (player : PlayerRef) : M unit :=
  id ← gets (fun w => EntityID_of (Entity_of (playerAt w player)));
  MulticastRadiusPacket (WriteDestroyEntity id) player;;
  id ← gets (fun w => EntityID_of (Entity_of (playerAt w player)));
  set_players (delete id);;
  RemoveEntity_player player;;
  nm ← gets (fun w => name (playerAt w player));
  SendChatMessage (nm +:+ " has left").

(** [AddPickupItem]:
<<
    game.entityManager.AddEntity(&item.Entity)
    game.pickupItems[item.Entity.EntityID] = item
    buf := ...; err := WritePickupSpawn(buf, item)
    if err != nil { log.Print("AddPickupItem", err.String()); return }
    game.MulticastChunkPacket(buf.Bytes(), item.position.ToChunkXZ())
>> *)
Definition AddPickupItem (item : ItemRef) : M unit :=
  AddEntity_item item;;
  id ← gets (fun w => EntityID_of (iEntity (itemAt w item)));
  set_pickupItems (insert id item);;
  i ← gets (fun w => itemAt w item);
  match WritePickupSpawn (EntityID_of (iEntity i)) (iposition i) (idata i) with
  | inr err => emit (LogPrint ("AddPickupItem" +:+ err))
  | inl buf => MulticastChunkPacket buf (ToChunkXZ (iposition i))
  end.

Definition sendTimeUpdate : M unit :=
  t ← gets (fun w => time (game w));
  MulticastPacket (WriteTimeUpdate t) None.

(** [tick]: [game.time += 20] on an [int64], then [sendTimeUpdate]. *)
Definition tick : M unit :=
  set_time (fun t => wrap64 (t + 20));;
  sendTimeUpdate.

(** The fields [NewGame] gives the modelled part of a fresh game. *)
Definition NewGame_fields : Game :=
  {| entityManager := EntityManager_zero; players := ∅; pickupItems := ∅;
     time := 0 |}.

(** ** Notions the statements about the methods use *)

(** [w] with the calls [es] appended to its record of calls. *)
Definition add_out (es : list Event) (w : World) : World :=
  {| game := game w; playerAt := playerAt w; itemAt := itemAt w;
     out := out w ++ es |}.

(** The players a [range] over the player directory yields. *)
Definition registered (w : World) : list PlayerRef :=
  map snd (range_players (players (game w))).

(** The interest-radius set of [player]: what [PlayersInPlayerRadius]
    yields. *)
Definition radius_set (w : World) (player : PlayerRef) : list PlayerRef :=
  fst (PlayersInPlayerRadius player w).

(** [l] without the occurrences of [player]. *)
Definition others (player : PlayerRef) (l : list PlayerRef) : list PlayerRef :=
  List.filter (fun r => bool_decide (r <> player)) l.

(** One transmission of [packet] to each player of [l], in order. *)
Definition transmit_all (packet : Packet) (l : list PlayerRef) : list Event :=
  map (fun r => Transmit r packet) l.

(** [n] Tick commands applied one after the other. *)
Fixpoint ticks (n : nat) : M unit :=
  match n with
  | O => mret tt
  | S n' => tick;; ticks n'
  end.

End Coordinator.

End GameModel.

Module WorldStoreModel.

(** ** Tags

    The tag library is outside the world store's source file. [ITag] lists
    the kinds of tag of the level format with the [Value] the world store
    reads from each; a type assertion to [*nbt.Int] is a match on the
    constructor, and a failed lookup is the nil interface, which no
    assertion accepts. [float64] values are binary64 floats. *)
Inductive ITag : Type :=
| Byte (Value : Z)
| Short (Value : Z)
| Int (Value : Z)
| Long (Value : Z)
| Float (Value : float)
| Double (Value : float)
| ByteArray (Value : list Byte.byte)
| String (Value : string)
| List (Value : list ITag)
| Compound (Tags : list (string * ITag)).

(** [os.Error] values: [os.NewError(msg)], the [BadType] of the world
    store, and the errors of the file system and the decoders. *)
Inductive os_Error : Type :=
| NewError (msg : string)
| BadType (path : string)
| SysError (msg : string).

(** [err.String()] *)
Definition Error_String (e : os_Error) : string :=
  match e with
  | NewError msg => msg
  | BadType path => "Bad type in level.dat for " +:+ path
  | SysError msg => msg
  end.

Abbreviation AbsCoord := float.

Record AbsXyz : Type := { absX : AbsCoord; absY : AbsCoord; absZ : AbsCoord }.

(** [AbsCoord(v)] for an integer [v]: the conversion to [float64], exact on
    the 32-bit values of an [nbt.Int]. *)
Definition AbsCoord_of_int (v : Z) : AbsCoord :=
  if v <? 0 then PrimFloat.opp (PrimFloat.of_uint63 (Uint63.of_Z (- v)))
  else PrimFloat.of_uint63 (Uint63.of_Z v).

Abbreviation ChunkXZ := GameModel.ChunkXZ.

(** What the world store calls outside its source file: the file system and
    the decoders behind [loadLevelData], the lookups of the tag library, the
    clock and the random source behind the default seed, and the two chunk
    sources. *)
Class Collaborators : Type := {
  File : Type;
  Reader : Type;
  NamedTag : Type;
  PersistentStore : Type;
  Chunk : Type;
  DimensionId : Type;
  DimensionNormal : DimensionId;
  path_Join : string -> string -> string;
  os_Open : string -> os_Error + File;
  gzip_NewReader : File -> os_Error + Reader;
  nbt_Read : Reader -> os_Error + NamedTag;
  NamedTag_Lookup : NamedTag -> string -> option ITag;
  ITag_Lookup : ITag -> string -> option ITag;
  ChunkStoreForLevel :
    string -> NamedTag -> DimensionId -> os_Error + PersistentStore;
  time_Seconds : Z;
  rand_Int63 : Z -> Z;
  persistent_chunk : PersistentStore -> ChunkXZ -> option Chunk;
  generated_chunk : Z -> ChunkXZ -> option Chunk
}.

Section Store.
Context `{C : Collaborators}.

(** The chunk stores [LoadWorldStore] builds, by constructor call. *)
Inductive IChunkStore : Type :=
| Persistent (store : PersistentStore)
| TestGenerator (seed : Z)
| ChunkService (store : IChunkStore)
| MultiStore (stores : list IChunkStore).

Record WorldStore : Type := {
  WorldPath : string;
  Seed : Z;
  Time : Z;
  LevelData : NamedTag;
  ChunkStore : IChunkStore;
  SpawnPosition : AbsXyz
}.

(** ** The functions of the world store *)

Definition loadLevelData (worldPath : string) : os_Error + NamedTag :=
  match os_Open (path_Join worldPath "level.dat") with
  | inl err => inl err
  | inr file =>
      match gzip_NewReader file with
      | inl err => inl err
      | inr gzipReader => nbt_Read gzipReader
      end
  end.

(** The type assertions to [*nbt.Int], [*nbt.Long], [*nbt.Double] and
    [*nbt.List] on the result of a lookup. *)
Definition as_Int (t : option ITag) : option Z :=
  match t with Some (Int v) => Some v | _ => None end.

Definition as_Long (t : option ITag) : option Z :=
  match t with Some (Long v) => Some v | _ => None end.

Definition as_Double (t : option ITag) : option float :=
  match t with Some (Double v) => Some v | _ => None end.

Definition as_List (t : option ITag) : option (list ITag) :=
  match t with Some (List l) => Some l | _ => None end.

Definition missing_spawn : os_Error :=
  NewError "Invalid map level data: does not contain Spawn{X,Y,Z}".

(** [LoadWorldStore]: the returned world or error, and the services whose
    [Serve] has been started ([go store.Serve()]), in order. Every early
    [return] leaves before the loop that starts the services. *)
Definition LoadWorldStore (worldPath : string)
  : (os_Error + WorldStore) * list IChunkStore :=
  match loadLevelData worldPath with
  | inl err => (inl err, [])
  | inr levelData =>
      match as_Int (NamedTag_Lookup levelData "/Data/SpawnX"),
            as_Int (NamedTag_Lookup levelData "/Data/SpawnY"),
            as_Int (NamedTag_Lookup levelData "/Data/SpawnZ") with
      | Some vx, Some vy, Some vz =>
          let spawnPosition :=
            {| absX := AbsCoord_of_int vx; absY := AbsCoord_of_int vy;
               absZ := AbsCoord_of_int vz |} in
          let timeTicks :=
            match as_Long (NamedTag_Lookup levelData "/Data/Time") with
            | Some v => v
            | None => 0
            end in
          match ChunkStoreForLevel worldPath levelData DimensionNormal with
          | inl err => (inl err, [])
          | inr persistantChunkStore =>
              let chunkStores :=
                [] ++ [ChunkService (Persistent persistantChunkStore)] in
              let seed :=
                match as_Long (NamedTag_Lookup levelData "/Data/RandomSeed")
                with
                | Some v => v
                | None => rand_Int63 time_Seconds
                end in
              let chunkStores :=
                chunkStores ++ [ChunkService (TestGenerator seed)] in
              let world :=
                {| WorldPath := worldPath; Seed := seed; Time := timeTicks;
                   LevelData := levelData;
                   ChunkStore := ChunkService (MultiStore chunkStores);
                   SpawnPosition := spawnPosition |} in
              (inr world, chunkStores ++ [ChunkStore world])
          end
      | _, _, _ => (inl missing_spawn, [])
      end
  end.

(** What a call of [absXyzFromNbt] comes to: its two results, or the
    run-time panic of an index out of range. *)
Inductive Outcome : Type :=
| Returned (pos : AbsXyz) (err : option os_Error)
| Panicked.

Definition zero_AbsXyz : AbsXyz :=
  {| absX := 0%float; absY := 0%float; absZ := 0%float |}.

(** [absXyzFromNbt]: the three index expressions [posList.Value[0]],
    [posList.Value[1]], [posList.Value[2]] are evaluated before the three
    assertions are tested, so a list of fewer than three elements panics
    whatever it holds. On an error the position is the zero value. *)
Definition absXyzFromNbt (tag : ITag) (path : string) : Outcome :=
  match as_List (ITag_Lookup tag path) with
  | None => Returned zero_AbsXyz (Some (BadType path))
  | Some posList =>
      match posList !! 0%nat, posList !! 1%nat, posList !! 2%nat with
      | Some e0, Some e1, Some e2 =>
          match as_Double (Some e0), as_Double (Some e1),
                as_Double (Some e2) with
          | Some vx, Some vy, Some vz =>
              Returned {| absX := vx; absY := vy; absZ := vz |} None
          | _, _, _ => Returned zero_AbsXyz (Some (BadType path))
          end
      | _, _, _ => Panicked
      end
  end.

(** ** The chunk combinator *)

(** Modelled from the spec: the lookup of the chunk stores, which lies in
    the chunk store package, outside these sources. A source answers from
    its own data; a service answers as the source it wraps; the combinator
    "queries tiers in priority order and returns the first present result;
    if no tier has the chunk, the query is a miss". The second component
    lists the sources consulted, in order. *)
Fixpoint LoadChunk (s : IChunkStore) (c : ChunkXZ)
  : option Chunk * list IChunkStore :=
  match s with
  | Persistent store => (persistent_chunk store c, [s])
  | TestGenerator seed => (generated_chunk seed c, [s])
  | ChunkService store => LoadChunk store c
  | MultiStore stores =>
      (fix first (l : list IChunkStore) : option Chunk * list IChunkStore :=
         match l with
         | [] => (None, [])
         | t :: l' =>
             match LoadChunk t c with
             | (Some chunk, asked) => (Some chunk, asked)
             | (None, asked) =>
                 let '(r, asked') := first l' in (r, asked ++ asked')
             end
         end) stores
  end.

End Store.

End WorldStoreModel.

(** ** A concrete set of collaborators

    Integer block positions with 16-block chunks, a counter for the entity
    manager, 32-bit chunk coordinates, a radius of 10 chunks, and writers that
    lay a packet out as a kind byte and its fields. *)
Module Sample.
Import GameModel.

Definition byte_of_Z (v : Z) : Byte.byte :=
  default Byte.x00 (Byte.of_N (Z.to_N (v `mod` 256))).

(** The [n] low bytes of [v], most significant first. *)
Fixpoint be_bytes (n : nat) (v : Z) : list Byte.byte :=
  match n with
  | O => []
  | S n' => be_bytes n' (v / 256) ++ [byte_of_Z v]
  end.

Definition string_bytes (s : string) : list Byte.byte :=
  be_bytes 2 (Z.of_nat (String.length s)) ++ String.list_byte_of_string s.

Definition xyz_bytes (p : Z * Z * Z) : list Byte.byte :=
  let '(px, py, pz) := p in be_bytes 4 px ++ be_bytes 4 py ++ be_bytes 4 pz.

Definition manager_add (em : Z * list Z) (e : Entity) : (Z * list Z) * Entity :=
  ((fst em + 1, fst em :: snd em), {| EntityID_of := fst em |}).

Definition manager_remove (em : Z * list Z) (e : Entity)
  : (Z * list Z) * Entity :=
  ((fst em, List.filter (fun i => negb (i =? EntityID_of e)) (snd em)), e).

Definition to_chunk (p : Z * Z * Z) : ChunkXZ :=
  let '(px, _, pz) := p in {| x := px / 16; z := pz / 16 |}.

#[export] Instance collaborators : Collaborators := {|
  XYZ := Z * Z * Z;
  Orientation := unit;
  ItemID := Z;
  ItemData := Z * bool;
  EntityManager := Z * list Z;
  EntityManager_zero := (0, []);
  coord_bits := 32;
  ChunkRadius := 10;
  ToChunkXZ := to_chunk;
  AddEntity := manager_add;
  RemoveEntity := manager_remove;
  WriteNamedEntitySpawn := fun id nm pos _ item =>
    Byte.x14 :: be_bytes 4 id ++ string_bytes nm ++ xyz_bytes pos
             ++ be_bytes 2 item;
  WriteDestroyEntity := fun id => Byte.x1d :: be_bytes 4 id;
  WriteChatMessage := fun msg => Byte.x03 :: string_bytes msg;
  WriteTimeUpdate := fun t => Byte.x04 :: be_bytes 8 t;
  WritePickupSpawn := fun id pos d =>
    if snd d then inl (Byte.x15 :: be_bytes 4 id ++ be_bytes 2 (fst d)
                                ++ xyz_bytes pos)
    else inr "item cannot be written"%string;
  range_players := map_to_list;
  range_players_perm := fun m => reflexivity (map_to_list m)
|}.

Definition player_at (id : Z) (nm : string) (pos : Z * Z * Z) : Player :=
  {| Entity_of := {| EntityID_of := id |}; name := nm; position := pos;
     orientation := tt; currentItem := 0 |}.

Definition item_at (id : Z) (pos : Z * Z * Z) (ok : bool) : PickupItem :=
  {| iEntity := {| EntityID_of := id |}; iposition := pos;
     idata := (1, ok) |}.

(** A world with the given clock, directory and heap, and an entity manager
    that has handed out the ids 5 and 6. *)
Definition world_of (t : Z) (dir : gmap Z PlayerRef)
    (heap : PlayerRef -> Player) (items : ItemRef -> PickupItem) : World :=
  {| game := {| entityManager := (7, [5; 6]); players := dir;
                pickupItems := ∅; time := t |};
     playerAt := heap; itemAt := items; out := [] |}.

(** One player, at address 1, registered under id 5, standing in chunk
    (0, 12). *)
Definition alone : World :=
  world_of 0 {[ 5 := 1%positive ]}
           (fun _ => player_at 5 "ann" (0, 64, 192))
           (fun _ => item_at 0 (0, 0, 0) true).

(** Two players: [ann] (address 1, id 5) in chunk (0, 0) and [bob]
    (address 2, id 6) in chunk (11, 0). *)
Definition pair : World :=
  world_of 0 {[ 5 := 1%positive; 6 := 2%positive ]}
           (fun r => if decide (r = 1%positive)
                     then player_at 5 "ann" (0, 64, 0)
                     else player_at 6 "bob" (176, 64, 0))
           (fun _ => item_at 0 (0, 0, 0) true).

(** A game whose clock is eight ticks short of the end of [int64]; the
    value is a multiple of 20, as every clock counted up from zero is. *)
Definition late : World :=
  world_of (2 ^ 63 - 8) {[ 5 := 1%positive ]}
           (fun _ => player_at 5 "ann" (0, 64, 0))
           (fun _ => item_at 0 (0, 0, 0) true).

(** A newcomer at address 3, far from [ann] and [bob] of [pair]. *)
Definition pair_and_far : World :=
  world_of 0 {[ 5 := 1%positive; 6 := 2%positive ]}
           (fun r => if decide (r = 1%positive)
                     then player_at 5 "ann" (0, 64, 0)
                     else if decide (r = 2%positive)
                          then player_at 6 "bob" (176, 64, 0)
                          else player_at 0 "cy" (8000, 64, 8000))
           (fun _ => item_at 0 (0, 0, 0) false).

End Sample.

(** ** A concrete set of collaborators for the world store

    Level data as a table from paths to tags, four worlds on disk, chunk
    data as a number, and a store that holds the chunks of two
    coordinates. *)
Module WorldSample.
Import WorldStoreModel.

Fixpoint assoc {A : Type} (l : list (string * A)) (k : string) : option A :=
  match l with
  | [] => None
  | (k', v) :: l' => if decide (k' = k) then Some v else assoc l' k
  end.

Definition spawn_of (sx sy sz : ITag) : list (string * ITag) :=
  [("/Data/SpawnX", sx); ("/Data/SpawnY", sy); ("/Data/SpawnZ", sz)].

(** [ints]: integer spawn, time and seed; [plain]: integer spawn only;
    [doubles]: floating spawn, time and seed; [bare]: none of them. *)
Definition disk : list (string * list (string * ITag)) :=
  [("ints/level.dat",
     spawn_of (Int 0) (Int 64) (Int (-8))
       ++ [("/Data/Time", Long 6000); ("/Data/RandomSeed", Long 42)]);
   ("plain/level.dat", spawn_of (Int 0) (Int 64) (Int (-8)));
   ("doubles/level.dat",
     spawn_of (Double 0.5) (Double 64) (Double (-8))
       ++ [("/Data/Time", Long 6000); ("/Data/RandomSeed", Long 42)]);
   ("bare/level.dat", [])].

Definition stored : list (Z * Z * Z) := [(0, 0, 1000); (0, 1, 1001)].

Definition stored_chunk (s : list (Z * Z * Z)) (c : ChunkXZ) : option Z :=
  snd <$> List.find (fun e => (fst (fst e) =? GameModel.x c)
                              && (snd (fst e) =? GameModel.z c)) s.

#[export] Instance collaborators : Collaborators := {|
  File := list (string * ITag);
  Reader := list (string * ITag);
  NamedTag := list (string * ITag);
  PersistentStore := list (Z * Z * Z);
  Chunk := Z;
  DimensionId := Z;
  DimensionNormal := 0;
  path_Join := fun a b => a +:+ "/" +:+ b;
  os_Open := fun p =>
    match assoc disk p with
    | Some f => inr f
    | None => inl (SysError "no such file or directory")
    end;
  gzip_NewReader := inr;
  nbt_Read := inr;
  NamedTag_Lookup := assoc;
  ITag_Lookup := fun t p =>
    match t with Compound l => assoc l p | _ => None end;
  ChunkStoreForLevel := fun _ _ _ => inr stored;
  time_Seconds := 1300000000;
  rand_Int63 := fun s =>
    (s * 6364136223846793005 + 1442695040888963407) `mod` 2 ^ 63;
  persistent_chunk := stored_chunk;
  generated_chunk := fun seed c =>
    Some (seed + 31 * GameModel.x c + GameModel.z c)
|}.

(** A player file whose position list holds three doubles, one whose list
    holds an integer, and one whose list is too short. *)
Definition player_ok : ITag :=
  Compound [("/Pos", List [Double 1.5; Double 64; Double (-3.25)])].

Definition player_int : ITag :=
  Compound [("/Pos", List [Double 1.5; Int 64; Double (-3.25)])].

Definition player_short : ITag :=
  Compound [("/Pos", List [Double 1.5; Double 64])].

(** The world loaded from [ints]. *)
Definition ints_world : WorldStore :=
  {| WorldPath := "ints"; Seed := 42; Time := 6000;
     LevelData := spawn_of (Int 0) (Int 64) (Int (-8))
                    ++ [("/Data/Time", Long 6000);
                        ("/Data/RandomSeed", Long 42)];
     ChunkStore :=
       ChunkService (MultiStore [ChunkService (Persistent stored);
                                 ChunkService (TestGenerator 42)]);
     SpawnPosition := {| absX := 0; absY := 64; absZ := -8 |} |}.

End WorldSample.

(** * The rest of the two files

    The directory invariant of the coordinator, the start-up read of the
    start position, and the per-dimension chunk store of the world store. *)
Module GameInvariant.
Import GameModel.

Section Invariant.
Context `{C : Collaborators}.

(** Every entry of the player directory sits under the [EntityID] of the
    player it points to: what [game.players[player.EntityID] = player]
    establishes for the entry it writes. *)
Definition keyed_by_id (w : World) : Prop :=
  forall id r, players (game w) !! id = Some r ->
               EntityID_of (Entity_of (playerAt w r)) = id.

(** No player is registered under two ids. *)
Definition one_key_each (w : World) : Prop :=
  forall id1 id2 r, players (game w) !! id1 = Some r ->
                    players (game w) !! id2 = Some r -> id1 = id2.

(** The calls [f] adds to the record of calls of [w]. *)
Definition new_calls (f : M unit) (w : World) : list Event :=
  drop (length (out w)) (out (snd (f w))).

(** The receivers of the transmissions among [es], in order. *)
Definition receivers (es : list Event) : list PlayerRef :=
  omap (fun e => match e with
                 | Transmit r _ => Some r
                 | LogPrint _ => None
                 end) es.

(** The worlds the coordinator gets to from a game that [NewGame] built,
    by the commands of this file: [AddPlayer] of a player that is not yet
    registered, [RemovePlayer], [AddPickupItem] and the Tick. *)
Inductive reachable : World -> Prop :=
| reach_NewGame (w : World) :
    game w = NewGame_fields -> reachable w
| reach_AddPlayer (w : World) (player : PlayerRef) :
    reachable w -> player ∉ registered w ->
    reachable (snd (AddPlayer player w))
| reach_RemovePlayer (w : World) (player : PlayerRef) :
    reachable w -> reachable (snd (RemovePlayer player w))
| reach_AddPickupItem (w : World) (item : ItemRef) :
    reachable w -> reachable (snd (AddPickupItem item w))
| reach_tick (w : World) :
    reachable w -> reachable (snd (tick w)).

End Invariant.

End GameInvariant.

Module StartPositionModel.
Import GameModel WorldStoreModel.

(** What a call of [loadStartPosition] comes to: [log.Exit] ends the
    process with a message, an unchecked type assertion or index panics, and
    otherwise the package variable [StartPosition] is assigned. *)
Inductive StartOutcome {XYZ : Type} : Type :=
| Exited (message : string)
| StartPanicked
| Assigned (StartPosition : XYZ).
Arguments StartOutcome XYZ : clear implicits.

(** The library calls of [loadStartPosition], in the three-argument
    [os.Open] and the uncompressed [nbt.Read] of its time, and the [XYZ]
    literal of three [AbsoluteCoord] conversions. *)
Class Collaborators `{G : GameModel.Collaborators} : Type := {
  File : Type;
  NamedTag : Type;
  AbsoluteCoord : Type;
  path_Join : string -> string -> string;
  os_Open : string -> os_Error + File;
  nbt_Read : File -> os_Error + NamedTag;
  Lookup : NamedTag -> string -> option ITag;
  AbsoluteCoord_of : float -> AbsoluteCoord;
  XYZ_of : AbsoluteCoord -> AbsoluteCoord -> AbsoluteCoord -> XYZ
}.

Section StartPosition.
Context `{S : Collaborators}.

(** Element [i] of [pos] read as the source does, asserting [pos] to
    [*nbt.List] and the element to [*nbt.Double] without the comma-ok form:
    [None] is the panic of a failed assertion or of an index out of range. *)
Definition unchecked_Double (pos : option ITag) (i : nat) : option float :=
  match pos with
  | Some (List l) =>
      match l !! i with
      | Some (Double v) => Some v
      | _ => None
      end
  | _ => None
  end.

(** [loadStartPosition]:
<<
    file, err := os.Open(path.Join(worldPath, "level.dat"), os.O_RDONLY, 0)
    if err != nil { log.Exit("loadStartPosition: ", err.String()) }
    level, err := nbt.Read(file)
    file.Close()
    if err != nil { log.Exit("loadStartPosition: ", err.String()) }
    pos := level.Lookup("/Data/Player/Pos")
    StartPosition = XYZ{ AbsoluteCoord(pos.(...).Value[0].(...).Value), ... }
>> *)
Definition loadStartPosition (worldPath : string) : StartOutcome XYZ :=
  match os_Open (path_Join worldPath "level.dat") with
  | inl err => Exited ("loadStartPosition: " +:+ Error_String err)
  | inr file =>
      match nbt_Read file with
      | inl err => Exited ("loadStartPosition: " +:+ Error_String err)
      | inr level =>
          let pos := Lookup level "/Data/Player/Pos" in
          match unchecked_Double pos 0 with
          | None => StartPanicked
          | Some vx =>
              match unchecked_Double pos 1 with
              | None => StartPanicked
              | Some vy =>
                  match unchecked_Double pos 2 with
                  | None => StartPanicked
                  | Some vz =>
                      Assigned (XYZ_of (AbsoluteCoord_of vx)
                                       (AbsoluteCoord_of vy)
                                       (AbsoluteCoord_of vz))
                  end
              end
          end
      end
  end.

End StartPosition.

End StartPositionModel.

Module DimensionModel.
Import WorldStoreModel.

Section Dimension.
Context `{C : Collaborators}.

(** [ChunkStoreForDimension]: the returned store or error, and the services
    started.
<<
    fgStore, err := chunkstore.ChunkStoreForLevel(world.WorldPath,
                                                  world.LevelData, dimension)
    if err != nil { return }
    store = chunkstore.NewChunkService(fgStore)
    go store.Serve()
>> *)
Definition ChunkStoreForDimension (world : WorldStore)
    (dimension : DimensionId) : (os_Error + IChunkStore) * list IChunkStore :=
  match ChunkStoreForLevel (WorldPath world) (LevelData world) dimension with
  | inl err => (inl err, [])
  | inr fgStore =>
      let store := ChunkService (Persistent fgStore) in
      (inr store, [store])
  end.

End Dimension.

End DimensionModel.

(** ** More sample worlds *)
Module MoreSamples.
Import GameModel Sample WorldStoreModel.

(** A directory whose only entry sits under id 7, the id the sample entity
    manager hands out next: [ann], at address 1. *)
Definition taken : World :=
  world_of 0 {[ 7 := 1%positive ]}
           (fun r => if decide (r = 1%positive)
                     then player_at 7 "ann" (0, 64, 0)
                     else player_at 0 "dan" (0, 64, 0))
           (fun _ => item_at 0 (0, 0, 0) true).

(** A game as [NewGame] builds it, with the heap of [pair]. *)
Definition fresh : World :=
  {| game := NewGame_fields; playerAt := playerAt pair;
     itemAt := itemAt pair; out := [] |}.

(** The block a coordinate falls in: the floor of a finite float, zero
    otherwise. *)
Definition block_of (f : float) : Z :=
  match Prim2SF f with
  | S754_finite s m e =>
      let n := if 0 <=? e then Z.pos m * 2 ^ e else Z.pos m / 2 ^ (- e) in
      let up := if 0 <=? e then n
                else (Z.pos m + 2 ^ (- e) - 1) / 2 ^ (- e) in
      if s then - up else n
  | _ => 0
  end.

(** Level files of the start-up read: one with a player position, one
    whose position holds an integer, one without a position. *)
Definition start_disk : list (string * list (string * ITag)) :=
  [("world/level.dat",
     [("/Data/Player/Pos", List [Double 1.5; Double 64; Double (-3.25)])]);
   ("mixed/level.dat",
     [("/Data/Player/Pos", List [Double 1.5; Int 64; Double (-3.25)])]);
   ("empty/level.dat", [])].

#[export] Instance start_collaborators
  : StartPositionModel.Collaborators (G := Sample.collaborators) := {|
  StartPositionModel.File := list (string * ITag);
  StartPositionModel.NamedTag := list (string * ITag);
  StartPositionModel.AbsoluteCoord := Z;
  StartPositionModel.path_Join := fun a b => a +:+ "/" +:+ b;
  StartPositionModel.os_Open := fun p =>
    match WorldSample.assoc start_disk p with
    | Some f => inr f
    | None => inl (SysError "no such file or directory")
    end;
  StartPositionModel.nbt_Read := inr;
  StartPositionModel.Lookup := WorldSample.assoc;
  StartPositionModel.AbsoluteCoord_of := block_of;
  StartPositionModel.XYZ_of := fun a b c => (a, b, c)
|}.

End MoreSamples.

(** * Properties

    First the coordinator, then the world store; in each part the lemmas
    hold for every set of collaborators and are followed by their instances
    on the sample ones. *)

Module GameFacts.
Import GameModel.

Section Facts.
Context `{C : Collaborators}.

(** ** Loops and broadcasts *)

Lemma add_out_nil (w : World) : add_out [] w = w.
Proof. destruct w; unfold add_out; cbn. by rewrite app_nil_r. Qed.

Lemma add_out_add_out (es es' : list Event) (w : World) :
  add_out es' (add_out es w) = add_out (es ++ es') w.
Proof. unfold add_out; cbn. by rewrite app_assoc. Qed.

Lemma forM_transmit_others (packet : Packet) (sender : PlayerRef)
    (l : list PlayerRef) (w : World) :
  forM_ l (fun receiver =>
    if decide (receiver = sender) then mret tt
    else TransmitPacket receiver packet) w
  = (tt, add_out (transmit_all packet (others sender l)) w).
Proof.
  revert w. induction l as [|r l IH]; intros w.
  - cbn. by rewrite add_out_nil.
  - cbn [forM_]. unfold mbind, M_bind.
    destruct (decide (r = sender)) as [->|Hne].
    + unfold mret, M_ret. rewrite IH. unfold others. cbn [List.filter].
      rewrite bool_decide_false; [done|]. intros H; by apply H.
    + unfold TransmitPacket, emit, modify. rewrite IH.
      unfold others. cbn [List.filter].
      rewrite bool_decide_true by done. cbn.
      f_equal. unfold add_out; cbn. by rewrite <- app_assoc.
Qed.

Lemma forM_transmit_all (packet : Packet) (l : list PlayerRef) (w : World) :
  forM_ l (fun receiver => TransmitPacket receiver packet) w
  = (tt, add_out (transmit_all packet l) w).
Proof.
  revert w. induction l as [|r l IH]; intros w.
  - cbn. by rewrite add_out_nil.
  - cbn [forM_]. unfold mbind, M_bind, TransmitPacket, emit, modify.
    rewrite IH. f_equal. unfold add_out; cbn. by rewrite <- app_assoc.
Qed.

Lemma forM_ext {A : Type} (l : list A) (f g : A -> M unit) (w : World) :
  (forall a w', f a w' = g a w') -> forM_ l f w = forM_ l g w.
Proof.
  intros Hfg. revert w. induction l as [|a l IH]; intros w; [done|].
  cbn [forM_]. unfold mbind, M_bind. rewrite Hfg.
  destruct (g a w) as [u w']. apply IH.
Qed.

Lemma MulticastPacket_all (packet : Packet) (w : World) :
  MulticastPacket packet None w
  = (tt, add_out (transmit_all packet (registered w)) w).
Proof.
  unfold MulticastPacket, mbind, M_bind, gets.
  rewrite <- forM_transmit_all. apply forM_ext.
  intros r w'. by destruct (decide (Some r = None)).
Qed.


Lemma MulticastRadiusPacket_spec (packet : Packet) (sender : PlayerRef)
    (w : World) :
  MulticastRadiusPacket packet sender w
  = (tt, add_out (transmit_all packet (others sender (radius_set w sender)))
                 w).
Proof.
  unfold MulticastRadiusPacket, radius_set, mbind, M_bind.
  destruct (PlayersInPlayerRadius sender w) as [l w'] eqn:E.
  assert (w' = w) as ->.
  { unfold PlayersInPlayerRadius, PlayersInRadius, mbind, M_bind, gets in E.
    by inversion E. }
  apply forM_transmit_others.
Qed.

Lemma MulticastChunkPacket_spec (packet : Packet) (loc : ChunkXZ) (w : World) :
  MulticastChunkPacket packet loc w
  = (tt, add_out (transmit_all packet (fst (PlayersInRadius loc w))) w).
Proof.
  unfold MulticastChunkPacket, PlayersInRadius, mbind, M_bind, gets. cbn.
  apply forM_transmit_all.
Qed.

Lemma spawn_existing_spec (w : World) (player : PlayerRef)
    (l : list PlayerRef) (buf : Packet) :
  spawn_existing w player l buf
  = buf ++ concat (map (spawn_packet w) (others player l)).
Proof.
  revert buf. induction l as [|e l IH]; intros buf; cbn.
  - by rewrite app_nil_r.
  - destruct (decide (e = player)) as [->|Hne].
    + rewrite IH. unfold others; cbn [List.filter].
      rewrite bool_decide_false; [done|]. intros H; by apply H.
    + rewrite IH. unfold others; cbn [List.filter].
      rewrite bool_decide_true by done. cbn. by rewrite app_assoc.
Qed.

Lemma elem_of_registered (w : World) (r : PlayerRef) :
  r ∈ registered w <-> exists id, players (game w) !! id = Some r.
Proof.
  unfold registered. rewrite list_elem_of_fmap. split.
  - intros [[id r'] [-> Hin]]. exists id.
    rewrite range_players_perm in Hin. by apply elem_of_map_to_list in Hin.
  - intros [id Hid]. exists (id, r). split; [done|].
    rewrite range_players_perm. by apply elem_of_map_to_list.
Qed.

Lemma elem_of_radius_set (w : World) (player r : PlayerRef) :
  r ∈ radius_set w player
  <-> r ∈ registered w
      /\ in_bounds (chunk_of w player) (chunk_of w r) = true.
Proof.
  unfold radius_set, PlayersInPlayerRadius, PlayersInRadius, mbind, M_bind,
    gets. cbn. fold (registered w).
  rewrite list_elem_of_In, filter_In, <- list_elem_of_In. tauto.
Qed.

Lemma elem_of_others (player r : PlayerRef) (l : list PlayerRef) :
  r ∈ others player l <-> r <> player /\ r ∈ l.
Proof.
  unfold others. rewrite list_elem_of_In, filter_In, <- list_elem_of_In.
  rewrite bool_decide_eq_true. tauto.
Qed.

(** ** Running a method body step by step *)

Lemma bind_run {A B : Type} (m : M A) (k : A -> M B) (w w' : World) (a : A) :
  m w = (a, w') -> (m ≫= k) w = k a w'.
Proof. intros H. unfold mbind, M_bind. by rewrite H. Qed.

Lemma bind_gets {A B : Type} (f : World -> A) (k : A -> M B) (w : World) :
  (gets f ≫= k) w = k (f w) w.
Proof. reflexivity. Qed.

Lemma bind_modify {B : Type} (f : World -> World) (k : unit -> M B)
    (w : World) :
  (modify f ≫= k) w = k tt (f w).
Proof. reflexivity. Qed.

(** Reading the registered players or a radius set does not depend on the
    record of calls. *)
Lemma registered_add_out (es : list Event) (w : World) :
  registered (add_out es w) = registered w.
Proof. reflexivity. Qed.

Lemma radius_set_add_out (es : list Event) (w : World) (p : PlayerRef) :
  radius_set (add_out es w) p = radius_set w p.
Proof. reflexivity. Qed.

Lemma spawn_packet_add_out (es : list Event) (w : World) (r : PlayerRef) :
  spawn_packet (add_out es w) r = spawn_packet w r.
Proof. reflexivity. Qed.

(** The world once [AddPlayer] has registered the entity and inserted the
    player, before any packet is sent. *)
Lemma AddPlayer_run (w : World) (player : PlayerRef) :
  let p0 := playerAt w player in
  let reg := AddEntity (entityManager (game w)) (Entity_of p0) in
  let w1 :=
    {| game := {| entityManager := fst reg;
                  players := <[EntityID_of (snd reg) := player]>
                               (players (game w));
                  pickupItems := pickupItems (game w);
                  time := time (game w) |};
       playerAt := fun r => if decide (r = player)
                            then with_entity p0 (snd reg) else playerAt w r;
       itemAt := itemAt w;
       out := out w |} in
  let near := others player (radius_set w1 player) in
  AddPlayer player w =
  (tt, add_out
         (transmit_all (WriteChatMessage (name p0 +:+ " has joined"))
                       (registered w1)
          ++ transmit_all (spawn_packet w1 player) near
          ++ [Transmit player (concat (map (spawn_packet w1) near))]) w1).
Proof.
  intros p0 reg w1 near.
  unfold AddPlayer, SendChatMessage, AddEntity_player, set_players.
  rewrite bind_modify. fold p0. fold reg.
  assert (playerAt w1 player = with_entity p0 (snd reg)) as Hp.
  { unfold w1; cbn [playerAt]. by rewrite decide_True. }
  set (wa := let '(em, e) := reg in _).
  assert (playerAt wa = playerAt w1
          /\ game wa = set_entityManager (fst reg) (game w)
          /\ itemAt wa = itemAt w /\ out wa = out w)
    as (Ha1 & Ha2 & Ha3 & Ha4).
  { unfold wa. by destruct reg. }
  clearbody wa.
  rewrite bind_gets, bind_modify, bind_gets.
  rewrite Ha1, Hp. cbn [with_entity Entity_of name].
  assert (set_game (λ g, {| entityManager := entityManager g;
                            players := <[EntityID_of (snd reg):=player]>
                                         (players g);
                            pickupItems := pickupItems g;
                            time := time g |}) wa
          = w1) as ->.
  { unfold set_game. rewrite Ha1, Ha2, Ha3, Ha4. reflexivity. }
  erewrite bind_run by apply MulticastPacket_all.
  rewrite bind_gets.
  erewrite bind_run by apply MulticastRadiusPacket_spec.
  erewrite bind_run; [|reflexivity].
  rewrite bind_gets. unfold TransmitPacket, emit, modify.
  rewrite spawn_existing_spec. cbn [app].
  f_equal. unfold add_out; cbn [game playerAt itemAt out]. f_equal.
  rewrite Hp. cbn [with_entity name]. rewrite <- !app_assoc. reflexivity.
Qed.

(** The same for [RemovePlayer], [AddPickupItem] and [tick]. *)
Lemma RemovePlayer_run (w : World) (player : PlayerRef) :
  let p0 := playerAt w player in
  let id := EntityID_of (Entity_of p0) in
  let unreg := RemoveEntity (entityManager (game w)) (Entity_of p0) in
  let w1 :=
    {| game := {| entityManager := fst unreg;
                  players := delete id (players (game w));
                  pickupItems := pickupItems (game w);
                  time := time (game w) |};
       playerAt := fun r => if decide (r = player)
                            then with_entity p0 (snd unreg) else playerAt w r;
       itemAt := itemAt w;
       out := out w |} in
  RemovePlayer player w =
  (tt, add_out
         (transmit_all (WriteDestroyEntity id)
                       (others player (radius_set w player))
          ++ transmit_all (WriteChatMessage (name p0 +:+ " has left"))
                          (registered w1)) w1).
Proof.
  intros p0 id unreg w1.
  unfold RemovePlayer, SendChatMessage, RemoveEntity_player, set_players.
  rewrite bind_gets. fold p0. fold id.
  erewrite bind_run by apply MulticastRadiusPacket_spec.
  rewrite bind_gets, bind_modify, bind_modify.
  cbn [add_out set_game playerAt game entityManager players pickupItems time
       itemAt out].
  fold p0. fold id. fold unreg.
  set (wa := let '(em, e) := unreg in _).
  assert (wa = add_out (transmit_all (WriteDestroyEntity id)
                          (others player (radius_set w player))) w1) as ->.
  { unfold wa, w1. by destruct unreg. }
  rewrite bind_gets.
  assert (name (playerAt (add_out (transmit_all (WriteDestroyEntity id)
            (others player (radius_set w player))) w1) player) = name p0)
    as ->.
  { cbn [add_out playerAt w1]. by rewrite decide_True. }
  rewrite MulticastPacket_all, add_out_add_out. reflexivity.
Qed.

Lemma AddPickupItem_run (w : World) (item : ItemRef) :
  let i0 := itemAt w item in
  let reg := AddEntity (entityManager (game w)) (iEntity i0) in
  let id := EntityID_of (snd reg) in
  let w1 :=
    {| game := {| entityManager := fst reg;
                  players := players (game w);
                  pickupItems := <[id := item]> (pickupItems (game w));
                  time := time (game w) |};
       playerAt := playerAt w;
       itemAt := fun r => if decide (r = item)
                          then item_with_entity i0 (snd reg) else itemAt w r;
       out := out w |} in
  AddPickupItem item w =
  (tt, match WritePickupSpawn id (iposition i0) (idata i0) with
       | inr err => add_out [LogPrint ("AddPickupItem" +:+ err)] w1
       | inl buf =>
           add_out (transmit_all buf
                      (fst (PlayersInRadius (ToChunkXZ (iposition i0)) w1)))
                   w1
       end).
Proof.
  intros i0 reg id w1.
  unfold AddPickupItem, AddEntity_item, set_pickupItems.
  rewrite bind_modify. fold i0. fold reg.
  assert (itemAt w1 item = item_with_entity i0 (snd reg)) as Hi.
  { unfold w1; cbn [itemAt]. by rewrite decide_True. }
  set (wa := let '(em, e) := reg in _).
  assert (itemAt wa = itemAt w1
          /\ game wa = set_entityManager (fst reg) (game w)
          /\ playerAt wa = playerAt w /\ out wa = out w)
    as (Ha1 & Ha2 & Ha3 & Ha4).
  { unfold wa. by destruct reg. }
  clearbody wa.
  rewrite bind_gets, bind_modify, bind_gets.
  rewrite Ha1, Hi. cbn [item_with_entity iEntity].
  assert (set_game (λ g, {| entityManager := entityManager g;
                            players := players g;
                            pickupItems := <[EntityID_of (snd reg):=item]>
                                             (pickupItems g);
                            time := time g |}) wa
          = w1) as ->.
  { unfold set_game. rewrite Ha1, Ha2, Ha3, Ha4. reflexivity. }
  rewrite Hi. cbn [item_with_entity iEntity iposition idata]. fold id.
  destruct (WritePickupSpawn id (iposition i0) (idata i0)) as [buf|err].
  - apply MulticastChunkPacket_spec.
  - reflexivity.
Qed.

Lemma tick_run (w : World) :
  let t := wrap64 (time (game w) + 20) in
  let w1 :=
    {| game := {| entityManager := entityManager (game w);
                  players := players (game w);
                  pickupItems := pickupItems (game w);
                  time := t |};
       playerAt := playerAt w; itemAt := itemAt w; out := out w |} in
  tick w = (tt, add_out (transmit_all (WriteTimeUpdate t) (registered w)) w1).
Proof.
  intros t w1. unfold tick, sendTimeUpdate, set_time.
  rewrite bind_modify, bind_gets.
  exact (MulticastPacket_all (WriteTimeUpdate t) w1).
Qed.

(** ** Fixed-width arithmetic *)

Lemma wrap_in_range (bits v : Z) :
  0 < bits -> - 2 ^ (bits - 1) <= v < 2 ^ (bits - 1) -> wrap bits v = v.
Proof.
  intros Hb Hv. unfold wrap.
  assert (2 ^ bits = 2 * 2 ^ (bits - 1)) as Hp.
  { replace bits with (Z.succ (bits - 1)) at 1 by lia.
    rewrite Z.pow_succ_r by lia. reflexivity. }
  rewrite Z.mod_small by lia. lia.
Qed.

Lemma wrap64_in_range (v : Z) : minInt64 <= v <= maxInt64 -> wrap64 v = v.
Proof.
  unfold minInt64, maxInt64, wrap64. intros Hv.
  apply wrap_in_range; [lia|]. change (64 - 1) with 63. lia.
Qed.

(** What the bounds test of [PlayersInRadius] accepts when no bound leaves
    the range of [ChunkCoord]: the upper bound of both axes is taken from
    the x coordinate of the origin and lies one chunk beyond the radius. *)
Lemma in_bounds_no_overflow (loc p : ChunkXZ) :
  0 < coord_bits -> 0 <= ChunkRadius ->
  - 2 ^ (coord_bits - 1) <= x loc - ChunkRadius ->
  x loc + ChunkRadius + 1 < 2 ^ (coord_bits - 1) ->
  - 2 ^ (coord_bits - 1) <= z loc - ChunkRadius < 2 ^ (coord_bits - 1) ->
  in_bounds loc p = true
  <-> (x loc - ChunkRadius <= x p <= x loc + ChunkRadius + 1)
      /\ (z loc - ChunkRadius <= z p <= x loc + ChunkRadius + 1).
Proof.
  intros Hb HR H1 H2 H3. unfold in_bounds, ChunkCoord_add, ChunkCoord_sub.
  rewrite (wrap_in_range coord_bits (x loc - ChunkRadius)) by lia.
  rewrite (wrap_in_range coord_bits (z loc - ChunkRadius)) by lia.
  rewrite (wrap_in_range coord_bits (x loc + ChunkRadius)) by lia.
  rewrite (wrap_in_range coord_bits (x loc + ChunkRadius + 1)) by lia.
  rewrite !andb_true_iff, !Z.geb_le, !Z.leb_le. lia.
Qed.

(** Whatever the radius, a player standing in the chunk of the origin is
    refused once the z coordinate of the origin exceeds its x coordinate by
    more than the radius plus one. *)
Lemma in_bounds_misses_origin :
  0 < coord_bits -> 0 <= ChunkRadius ->
  ChunkRadius + 2 < 2 ^ (coord_bits - 1) ->
  in_bounds {| x := 0; z := ChunkRadius + 2 |}
            {| x := 0; z := ChunkRadius + 2 |} = false.
Proof.
  intros Hb HR Hfit. apply not_true_is_false. intros Hin.
  apply in_bounds_no_overflow in Hin; cbn [x z] in *; lia.
Qed.

(** ** The methods, claim by claim *)

(** C2. [AddPlayer] registers the player's entity, inserts the player into
    the directory under the id the registration left in the entity, and then
    sends, in this order: the join chat message to every registered player,
    the new player included; the spawn of the new player to every player of
    its radius set but itself; and one buffer, to the new player alone, that
    holds the spawn of each of those same players. *)
Theorem AddPlayer_effects (w : World) (player : PlayerRef) :
  let p0 := playerAt w player in
  let reg := AddEntity (entityManager (game w)) (Entity_of p0) in
  let w' := snd (AddPlayer player w) in
  let near := others player (radius_set w' player) in
  (entityManager (game w') = fst reg
   /\ playerAt w' player = with_entity p0 (snd reg))
  /\ players (game w')
     = <[EntityID_of (snd reg) := player]> (players (game w))
  /\ out w'
     = out w
       ++ transmit_all (WriteChatMessage (name p0 +:+ " has joined"))
                       (registered w')
       ++ transmit_all (spawn_packet w' player) near
       ++ [Transmit player (concat (map (spawn_packet w') near))]
  /\ player ∈ registered w'
  /\ (forall r, r ∈ registered w'
                <-> exists id, players (game w') !! id = Some r)
  /\ (forall r, r ∈ near
                <-> r <> player /\ r ∈ registered w'
                    /\ in_bounds (chunk_of w' player) (chunk_of w' r) = true).
Proof.
  intros p0 reg w' near. unfold near, w'. clear near w'.
  rewrite (AddPlayer_run w player). fold p0. fold reg. cbn [snd].
  set (w1 := {| game := _ |}).
  refine (conj (conj _ _) (conj _ (conj _ (conj _ (conj _ _))))).
  - reflexivity.
  - cbn. by rewrite decide_True.
  - reflexivity.
  - cbn [add_out out]. unfold w1 at 1. cbn [out]. reflexivity.
  - apply elem_of_registered. exists (EntityID_of (snd reg)).
    cbn. apply lookup_insert_eq.
  - intros r. apply elem_of_registered.
  - intros r. rewrite elem_of_others, elem_of_radius_set. tauto.
Qed.

(** C9. The buffer of existing players is sent to the new player whatever
    it holds: the last call [AddPlayer] makes is a transmission to that
    player, and when no other player is in its radius set the payload of
    that transmission is the empty buffer and no spawn precedes it. *)
Theorem AddPlayer_batch_always_sent (w : World) (player : PlayerRef) :
  let w' := snd (AddPlayer player w) in
  (exists buf, last (out w') = Some (Transmit player buf))
  /\ ((forall r, r ∈ radius_set w' player -> r = player) ->
      last (out w') = Some (Transmit player [])
      /\ out w'
         = out w
           ++ transmit_all
                (WriteChatMessage (name (playerAt w player) +:+ " has joined"))
                (registered w')
           ++ [Transmit player []]).
Proof.
  intros w'.
  assert (out w'
          = out w
            ++ transmit_all
                 (WriteChatMessage (name (playerAt w player) +:+ " has joined"))
                 (registered w')
            ++ transmit_all (spawn_packet w' player)
                            (others player (radius_set w' player))
            ++ [Transmit player
                  (concat (map (spawn_packet w')
                               (others player (radius_set w' player))))])
    as Hout.
  { unfold w'. rewrite (AddPlayer_run w player). reflexivity. }
  split.
  - eexists. rewrite Hout, !app_assoc. apply last_snoc.
  - intros Halone.
    assert (others player (radius_set w' player) = []) as Hnear.
    { destruct (others player (radius_set w' player)) as [|r l] eqn:E;
        [done|].
      assert (r ∈ others player (radius_set w' player)) as Hin
        by (rewrite E; left).
      apply elem_of_others in Hin as [Hne Hin]. by apply Halone in Hin. }
    rewrite Hnear in Hout. cbn [transmit_all map concat app] in Hout.
    split; [|exact Hout].
    rewrite Hout, !app_assoc. apply last_snoc.
Qed.

(** C5. For a player registered under its own entity id and no other key,
    [RemovePlayer] sends the destroy notification of that id to the
    player's radius set but the player, erases the player from the
    directory, unregisters its entity, and then sends the leave chat message
    to the players left in the directory, which the removed player is not
    among. *)
Theorem RemovePlayer_effects (w : World) (player : PlayerRef) :
  let p0 := playerAt w player in
  let id := EntityID_of (Entity_of p0) in
  (forall id', players (game w) !! id' = Some player <-> id' = id) ->
  let w' := snd (RemovePlayer player w) in
  let near := others player (radius_set w player) in
  out w'
  = out w
    ++ transmit_all (WriteDestroyEntity id) near
    ++ transmit_all (WriteChatMessage (name p0 +:+ " has left"))
                    (registered w')
  /\ (forall r, r ∈ near
                <-> r <> player /\ r ∈ registered w
                    /\ in_bounds (chunk_of w player) (chunk_of w r) = true)
  /\ entityManager (game w')
     = fst (RemoveEntity (entityManager (game w)) (Entity_of p0))
  /\ players (game w') = delete id (players (game w))
  /\ (player ∉ registered w')
  /\ (forall r, r ∈ registered w' <-> r ∈ registered w /\ r <> player).
Proof.
  intros p0 id Hown w' near. unfold near, w'. clear near w'.
  rewrite (RemovePlayer_run w player). fold p0. fold id. cbn [snd].
  set (w1 := {| game := _ |}).
  assert (forall r, r ∈ registered w1 <-> r ∈ registered w /\ r <> player)
    as Hleft.
  { intros r. rewrite !elem_of_registered. cbn. split.
    - intros [id' Hid']. apply lookup_delete_Some in Hid' as [Hne Hid'].
      split; [by exists id'|]. intros ->. by apply Hown in Hid'.
    - intros [[id' Hid'] Hne]. exists id'. apply lookup_delete_Some.
      split; [|done]. intros <-.
      assert (players (game w) !! id = Some player) as Hp by (by apply Hown).
      congruence. }
  refine (conj _ (conj _ (conj _ (conj _ (conj _ _))))).
  - cbn [add_out out]. unfold w1 at 1. cbn [out]. reflexivity.
  - intros r. rewrite elem_of_others, elem_of_radius_set. tauto.
  - reflexivity.
  - reflexivity.
  - intros Hin. apply (Hleft player) in Hin. by destruct Hin.
  - exact Hleft.
Qed.

(** C6. When the pickup spawn packet cannot be written, [AddPickupItem]
    returns having sent nothing and logged the error; the entity stays
    registered with the entity manager and the item stays in the item
    directory, and the rest of the game is as it was. *)
Theorem AddPickupItem_write_failure (w : World) (item : ItemRef)
    (err : string) :
  let i0 := itemAt w item in
  let reg := AddEntity (entityManager (game w)) (iEntity i0) in
  let id := EntityID_of (snd reg) in
  WritePickupSpawn id (iposition i0) (idata i0) = inr err ->
  let w' := snd (AddPickupItem item w) in
  out w' = out w ++ [LogPrint ("AddPickupItem" +:+ err)]
  /\ entityManager (game w') = fst reg
  /\ iEntity (itemAt w' item) = snd reg
  /\ pickupItems (game w') = <[id := item]> (pickupItems (game w))
  /\ pickupItems (game w') !! id = Some item
  /\ players (game w') = players (game w)
  /\ time (game w') = time (game w).
Proof.
  intros i0 reg id Herr w'. unfold w'. clear w'.
  rewrite (AddPickupItem_run w item). fold i0. fold reg. fold id.
  rewrite Herr. cbn.
  rewrite decide_True by done.
  repeat split. apply lookup_insert_eq.
Qed.

Lemma ticks_time (n : nat) (w : World) :
  minInt64 <= time (game w) ->
  time (game w) + 20 * Z.of_nat n <= maxInt64 ->
  time (game (snd (ticks n w))) = time (game w) + 20 * Z.of_nat n.
Proof.
  revert w. induction n as [|n IH]; intros w Hlo Hhi.
  - cbn. lia.
  - cbn [ticks]. erewrite bind_run by apply tick_run.
    rewrite IH; cbn [add_out game time].
    + rewrite wrap64_in_range by lia. lia.
    + rewrite wrap64_in_range by lia. lia.
    + rewrite wrap64_in_range by lia. lia.
Qed.

(** C4. While the clock stays within [int64], [n] Tick commands take it
    from [t] to [t + 20 * n], strictly upwards; and every Tick, whatever the
    clock, sends each registered player the time update written from the
    clock value the game holds after it. *)
Theorem tick_advances_clock (w : World) (n : nat) :
  minInt64 <= time (game w) ->
  time (game w) + 20 * Z.of_nat n <= maxInt64 ->
  time (game (snd (ticks n w))) = time (game w) + 20 * Z.of_nat n
  /\ ((0 < n)%nat -> time (game w) < time (game (snd (ticks n w))))
  /\ (forall w0 : World,
        out (snd (tick w0))
        = out w0
          ++ transmit_all (WriteTimeUpdate (time (game (snd (tick w0)))))
                          (registered (snd (tick w0)))).
Proof.
  intros Hlo Hhi. pose proof (ticks_time n w Hlo Hhi) as Ht.
  split; [exact Ht|]. split.
  - intros Hn. rewrite Ht. lia.
  - intros w0. by rewrite (tick_run w0).
Qed.

(** The clock of a game started by [NewGame], after [n] Tick commands that
    do not overflow it. *)
Lemma ticks_from_NewGame (n : nat) (w : World) :
  game w = NewGame_fields -> 20 * Z.of_nat n <= maxInt64 ->
  time (game (snd (ticks n w))) = 20 * Z.of_nat n.
Proof.
  intros Hg Hn. rewrite ticks_time; rewrite Hg; cbn; unfold minInt64; lia.
Qed.

End Facts.

(** ** The methods on the sample collaborators *)

Import Sample.

(** C1. [PlayersInRadius] on the sample server (radius 10): a registered
    player standing in chunk (0, 12) is not yielded for the origin (0, 12),
    its own chunk; and a player in chunk (11, 0) is yielded for the origin
    (0, 0), eleven chunks away. *)
Theorem PlayersInRadius_asymmetric :
  (players (game alone) !! 5 = Some 1%positive
   /\ chunk_of alone 1%positive = {| x := 0; z := 12 |}
   /\ fst (PlayersInRadius {| x := 0; z := 12 |} alone) = [])
  /\ (chunk_of pair 2%positive = {| x := 11; z := 0 |}
      /\ 2%positive ∈ fst (PlayersInRadius {| x := 0; z := 0 |} pair)).
Proof.
  split; [by vm_compute|]. split; [by vm_compute|].
  vm_compute. right. left.
Qed.

(** C9 on [pair_and_far]: the newcomer [cy] has nobody in its radius set
    and is sent the empty buffer. *)
Lemma AddPlayer_batch_always_sent_witness :
  last (out (snd (AddPlayer 3%positive pair_and_far)))
  = Some (Transmit 3%positive []).
Proof.
  apply (proj2 (AddPlayer_batch_always_sent pair_and_far 3%positive)).
  intros r Hr.
  assert (radius_set (snd (AddPlayer 3%positive pair_and_far)) 3%positive
          = [3%positive]) as E by (vm_compute; reflexivity).
  rewrite E in Hr. by apply list_elem_of_singleton in Hr.
Defined.

(** The directory of [pair]. *)
Lemma pair_registration (id : Z) (r : PlayerRef) :
  players (game pair) !! id = Some r
  <-> (id = 5 /\ r = 1%positive) \/ (id = 6 /\ r = 2%positive).
Proof.
  unfold pair, world_of. cbn [game players].
  rewrite lookup_insert_Some, lookup_singleton_Some.
  split.
  - intros [[<- <-]|[Hne [<- <-]]]; [by left|by right].
  - intros [[-> ->]|[-> ->]]; [by left|]. by right.
Qed.

(** C5 on [pair], with [bob] removed. *)
Lemma RemovePlayer_effects_witness :
  2%positive ∉ registered (snd (RemovePlayer 2%positive pair)).
Proof.
  refine (proj1 (proj2 (proj2 (proj2 (proj2
            (RemovePlayer_effects pair 2%positive _)))))).
  intros id'. rewrite pair_registration. cbn. split.
  - intros [[_ H]|[H _]]; [done|exact H].
  - intros ->. by right.
Defined.

(** C6 on [pair_and_far], whose items cannot be written: the item at
    address 1 is registered under the next free id, 7, and stays in the
    directory. *)
Lemma AddPickupItem_write_failure_witness :
  pickupItems (game (snd (AddPickupItem 1%positive pair_and_far))) !! 7
  = Some 1%positive.
Proof.
  refine (proj1 (proj2 (proj2 (proj2 (proj2
            (AddPickupItem_write_failure pair_and_far 1%positive
               "item cannot be written" _)))))).
  reflexivity.
Defined.

(** C4 on [pair]: three Ticks from clock 0. *)
Lemma tick_advances_clock_witness :
  time (game (snd (ticks 3 pair))) = time (game pair) + 20 * Z.of_nat 3.
Proof.
  refine (proj1 (tick_advances_clock pair 3 _ _)); vm_compute; discriminate.
Defined.

(** C4, as the claim states it: at the end of [int64] a Tick does not add
    20 to the clock; the clock wraps around and falls. *)
Lemma tick_wraps_at_int64_end :
  time (game late) = 9223372036854775800
  /\ time (game (snd (tick late))) = -9223372036854775796
  /\ time (game (snd (tick late))) <> time (game late) + 20
  /\ time (game (snd (tick late))) < time (game late).
Proof. by vm_compute. Qed.


End GameFacts.

Module WorldStoreFacts.
Import WorldStoreModel.

Section Facts.
Context `{C : Collaborators}.

(** The combinator over any list of tiers: a miss of every tier is a miss. *)
Lemma LoadChunk_MultiStore_miss (tiers : list IChunkStore) (c : ChunkXZ) :
  (forall t, t ∈ tiers -> fst (LoadChunk t c) = None) ->
  fst (LoadChunk (MultiStore tiers) c) = None.
Proof.
  cbn [LoadChunk]. induction tiers as [|t l IH]; intros Hall; [done|].
  pose proof (Hall t ltac:(left)) as Ht.
  destruct (LoadChunk t c) as [[chunk|] asked]; [done|].
  assert (forall t', t' ∈ l -> fst (LoadChunk t' c) = None) as Hl
    by (intros t' Ht'; apply Hall; by right).
  specialize (IH Hl).
  destruct ((fix first (l0 : list IChunkStore) := _) l) as [r asked'].
  exact IH.
Qed.

(** The combinator answers with the first tier that has the chunk, and
    consults no tier after it. *)
Lemma LoadChunk_MultiStore_hit (t : IChunkStore) (l : list IChunkStore)
    (c : ChunkXZ) (chunk : Chunk) (asked : list IChunkStore) :
  LoadChunk t c = (Some chunk, asked) ->
  LoadChunk (MultiStore (t :: l)) c = (Some chunk, asked).
Proof. intros H. cbn [LoadChunk]. by rewrite H. Qed.

Lemma LoadWorldStore_Some (worldPath : string) (world : WorldStore)
    (started : list IChunkStore) :
  LoadWorldStore worldPath = (inr world, started) ->
  exists levelData store vx vy vz,
    loadLevelData worldPath = inr levelData
    /\ as_Int (NamedTag_Lookup levelData "/Data/SpawnX") = Some vx
    /\ as_Int (NamedTag_Lookup levelData "/Data/SpawnY") = Some vy
    /\ as_Int (NamedTag_Lookup levelData "/Data/SpawnZ") = Some vz
    /\ ChunkStoreForLevel worldPath levelData DimensionNormal = inr store
    /\ ChunkStore world
       = ChunkService (MultiStore [ChunkService (Persistent store);
                                   ChunkService (TestGenerator (Seed world))])
    /\ started = [ChunkService (Persistent store);
                  ChunkService (TestGenerator (Seed world));
                  ChunkStore world].
Proof.
  unfold LoadWorldStore. intros H.
  destruct (loadLevelData worldPath) as [e|levelData] eqn:Hld; [done|].
  destruct (as_Int (NamedTag_Lookup levelData "/Data/SpawnX")) as [vx|]
    eqn:Hx; [|done].
  destruct (as_Int (NamedTag_Lookup levelData "/Data/SpawnY")) as [vy|]
    eqn:Hy; [|done].
  destruct (as_Int (NamedTag_Lookup levelData "/Data/SpawnZ")) as [vz|]
    eqn:Hz; [|done].
  destruct (ChunkStoreForLevel worldPath levelData DimensionNormal)
    as [e|store] eqn:Hstore; [done|].
  inversion H; subst; clear H. by exists levelData, store, vx, vy, vz.
Qed.

(** C3. With the level data read, [LoadWorldStore] takes the spawn position
    from three [Int] tags: when all three are there and the persistent
    store opens, it returns a world with that position, the time of the
    [Long] tag or zero, the seed of the [Long] tag or the value drawn from
    the clock, and has started the three services; when one of the three
    is absent or of another kind, it returns the missing-spawn error and
    has started nothing. *)
Theorem LoadWorldStore_spawn (worldPath : string) (levelData : NamedTag) :
  loadLevelData worldPath = inr levelData ->
  let sx := as_Int (NamedTag_Lookup levelData "/Data/SpawnX") in
  let sy := as_Int (NamedTag_Lookup levelData "/Data/SpawnY") in
  let sz := as_Int (NamedTag_Lookup levelData "/Data/SpawnZ") in
  (forall vx vy vz store,
     sx = Some vx -> sy = Some vy -> sz = Some vz ->
     ChunkStoreForLevel worldPath levelData DimensionNormal = inr store ->
     exists world,
       LoadWorldStore worldPath
       = (inr world, [ChunkService (Persistent store);
                      ChunkService (TestGenerator (Seed world));
                      ChunkStore world])
       /\ SpawnPosition world
          = {| absX := AbsCoord_of_int vx; absY := AbsCoord_of_int vy;
               absZ := AbsCoord_of_int vz |}
       /\ Time world
          = default 0 (as_Long (NamedTag_Lookup levelData "/Data/Time"))
       /\ Seed world
          = default (rand_Int63 time_Seconds)
              (as_Long (NamedTag_Lookup levelData "/Data/RandomSeed")))
  /\ (sx = None \/ sy = None \/ sz = None ->
      LoadWorldStore worldPath = (inl missing_spawn, [])).
Proof.
  intros Hld sx sy sz. split.
  - intros vx vy vz store Hx Hy Hz Hstore. unfold LoadWorldStore.
    rewrite Hld. fold sx sy sz. rewrite Hx, Hy, Hz, Hstore.
    cbv zeta. cbn [app].
    lazymatch goal with |- context [inr ?w] => exists w end.
    split; [reflexivity|].
    cbn [SpawnPosition Time Seed]. split; [reflexivity|].
    split; [by destruct (as_Long _)|by destruct (as_Long _)].
  - intros Hmiss. unfold LoadWorldStore. rewrite Hld. fold sx sy sz.
    destruct sx, sy, sz; try reflexivity.
    destruct Hmiss as [|[|]]; discriminate.
Qed.

(** C7. The chunk store of a loaded world is the combinator over the
    persistent store and the generator of the world's seed, in that order:
    a chunk the persistent store has is returned from it and the generator
    is not consulted; a chunk it lacks is what the generator gives for the
    seed; and a chunk no tier has is a miss, as with any list of tiers. *)
Theorem LoadWorldStore_chunk_priority (worldPath : string)
    (world : WorldStore) (started : list IChunkStore) :
  LoadWorldStore worldPath = (inr world, started) ->
  exists store,
    ChunkStore world
    = ChunkService (MultiStore [ChunkService (Persistent store);
                                ChunkService (TestGenerator (Seed world))])
    /\ (forall c chunk,
          persistent_chunk store c = Some chunk ->
          LoadChunk (ChunkStore world) c = (Some chunk, [Persistent store]))
    /\ (forall c,
          persistent_chunk store c = None ->
          LoadChunk (ChunkStore world) c
          = (generated_chunk (Seed world) c,
             [Persistent store; TestGenerator (Seed world)]))
    /\ (forall tiers c,
          (forall t, t ∈ tiers -> fst (LoadChunk t c) = None) ->
          fst (LoadChunk (MultiStore tiers) c) = None).
Proof.
  intros H.
  apply LoadWorldStore_Some in H
    as (levelData & store & vx & vy & vz & _ & _ & _ & _ & _ & Hcs & _).
  exists store. split; [exact Hcs|]. rewrite Hcs. split; [|split].
  - intros c chunk Hc. cbn. by rewrite Hc.
  - intros c Hc. cbn. rewrite Hc.
    by destruct (generated_chunk (Seed world) c).
  - apply LoadChunk_MultiStore_miss.
Qed.

(** Closes the case of [absXyzFromNbt] in which element [i] of the list [l]
    found at the path is not a [Double]. *)
Ltac bad_element l i :=
  let H := fresh in
  split;
  [ split; [intros _; right; exists l, i; repeat split; [lia|done]
           | by eexists]
  | intros H; destruct H; right; exists l, i; repeat split; [lia|done] ].

(** C10. When the value at the path, if a list, has three elements or
    more, [absXyzFromNbt] returns the [BadType] error of the path exactly
    when the value is not a list or one of its first three elements is not
    a [Double]; otherwise it returns no error and the position of the three
    [Double] values. *)
Theorem absXyzFromNbt_BadType (tag : ITag) (path : string) :
  (forall l, as_List (ITag_Lookup tag path) = Some l -> (3 <= length l)%nat) ->
  let bad :=
    as_List (ITag_Lookup tag path) = None
    \/ exists l i, as_List (ITag_Lookup tag path) = Some l
                   /\ (i < 3)%nat /\ as_Double (l !! i) = None in
  ((exists pos, absXyzFromNbt tag path = Returned pos (Some (BadType path)))
   <-> bad)
  /\ (~ bad ->
      exists vx vy vz rest,
        ITag_Lookup tag path
        = Some (List (Double vx :: Double vy :: Double vz :: rest))
        /\ absXyzFromNbt tag path
           = Returned {| absX := vx; absY := vy; absZ := vz |} None).
Proof.
  intros Hlen bad. unfold bad, absXyzFromNbt. clear bad.
  destruct (ITag_Lookup tag path) as [t|] eqn:Hl; cbn [as_List].
  2:{ split; [split; [by left|by eexists]|]. intros H. destruct H. by left. }
  destruct t as [| | | | | | | |l|];
    try (split; [split; [by left|by eexists]|];
         intros H; destruct H; by left).
  specialize (Hlen l eq_refl).
  destruct l as [|e0 [|e1 [|e2 rest]]]; cbn in Hlen; try lia.
  cbn [lookup list_lookup].
  destruct (as_Double (Some e0)) as [vx|] eqn:E0;
    [|bad_element (e0 :: e1 :: e2 :: rest) 0%nat].
  destruct (as_Double (Some e1)) as [vy|] eqn:E1;
    [|bad_element (e0 :: e1 :: e2 :: rest) 1%nat].
  destruct (as_Double (Some e2)) as [vz|] eqn:E2;
    [|bad_element (e0 :: e1 :: e2 :: rest) 2%nat].
  split.
  - split; [intros [pos Hpos]; discriminate|].
    intros [H|(l' & i & Hl' & Hi & Hd)]; [discriminate|].
    inversion Hl'; subst l'; clear Hl'.
    exfalso. destruct i as [|[|[|i]]]; [| | |lia];
      cbn [lookup list_lookup] in Hd; congruence.
  - intros _. exists vx, vy, vz, rest.
    destruct e0; try discriminate. destruct e1; try discriminate.
    destruct e2; try discriminate. cbn in E0, E1, E2.
    by inversion E0; inversion E1; inversion E2; subst.
Qed.

End Facts.

(** ** The world store on the sample collaborators *)

Import WorldSample.

(** C3, as the claim states it: a level whose three spawn coordinates are
    floating tags, with time and seed present and a persistent store that
    opens, is refused with the missing-spawn error. *)
Lemma LoadWorldStore_rejects_floating_spawn :
  (exists levelData,
     loadLevelData "doubles" = inr levelData
     /\ NamedTag_Lookup levelData "/Data/SpawnX" = Some (Double 0.5)
     /\ NamedTag_Lookup levelData "/Data/SpawnY" = Some (Double 64)
     /\ NamedTag_Lookup levelData "/Data/SpawnZ" = Some (Double (-8))
     /\ ChunkStoreForLevel "doubles" levelData DimensionNormal = inr stored)
  /\ LoadWorldStore "doubles" = (inl missing_spawn, []).
Proof.
  split; [|reflexivity]. eexists. split; [reflexivity|]. by repeat split.
Qed.

(** C3 on the worlds [plain] (integer spawn, no time, no seed) and [bare]
    (no spawn). *)
Lemma LoadWorldStore_spawn_witness :
  (exists world,
     LoadWorldStore "plain"
     = (inr world, [ChunkService (Persistent stored);
                    ChunkService (TestGenerator (Seed world));
                    ChunkStore world])
     /\ SpawnPosition world
        = {| absX := AbsCoord_of_int 0; absY := AbsCoord_of_int 64;
             absZ := AbsCoord_of_int (-8) |}
     /\ Time world = 0
     /\ Seed world = rand_Int63 time_Seconds)
  /\ LoadWorldStore "bare" = (inl missing_spawn, []).
Proof.
  split.
  - exact (proj1 (LoadWorldStore_spawn "plain"
                    (spawn_of (Int 0) (Int 64) (Int (-8))) eq_refl)
                 0 64 (-8) stored eq_refl eq_refl eq_refl eq_refl).
  - exact (proj2 (LoadWorldStore_spawn "bare" [] eq_refl)
                 (or_introl eq_refl)).
Defined.

(** C7 on the world loaded from [ints]. *)
Lemma LoadWorldStore_chunk_priority_witness :
  exists store,
    ChunkStore ints_world
    = ChunkService (MultiStore [ChunkService (Persistent store);
                                ChunkService (TestGenerator 42)])
    /\ (forall c chunk,
          persistent_chunk store c = Some chunk ->
          LoadChunk (ChunkStore ints_world) c
          = (Some chunk, [Persistent store]))
    /\ (forall c,
          persistent_chunk store c = None ->
          LoadChunk (ChunkStore ints_world) c
          = (generated_chunk 42 c, [Persistent store; TestGenerator 42]))
    /\ (forall tiers c,
          (forall t, t ∈ tiers -> fst (LoadChunk t c) = None) ->
          fst (LoadChunk (MultiStore tiers) c) = None).
Proof.
  exact (LoadWorldStore_chunk_priority "ints" ints_world
           [ChunkService (Persistent stored);
            ChunkService (TestGenerator 42); ChunkStore ints_world]
           eq_refl).
Defined.

(** The chunks of the sample world: (0, 1) is on disk, (5, 5) is not. *)
Lemma ints_world_chunks :
  LoadChunk (ChunkStore ints_world) {| GameModel.x := 0; GameModel.z := 1 |}
  = (Some 1001, [Persistent stored])
  /\ LoadChunk (ChunkStore ints_world)
               {| GameModel.x := 5; GameModel.z := 5 |}
     = (Some 202, [Persistent stored; TestGenerator 42]).
Proof. split; reflexivity. Qed.

(** C10 on a position list of three doubles. *)
Lemma absXyzFromNbt_BadType_witness :
  exists vx vy vz rest,
    ITag_Lookup player_ok "/Pos"
    = Some (List (Double vx :: Double vy :: Double vz :: rest))
    /\ absXyzFromNbt player_ok "/Pos"
       = Returned {| absX := vx; absY := vy; absZ := vz |} None.
Proof.
  refine (proj2 (absXyzFromNbt_BadType player_ok "/Pos" _) _).
  - intros l Hl. inversion Hl; subst l. cbn. lia.
  - intros [H|(l & i & Hl & Hi & Hd)]; [discriminate H|].
    inversion Hl; subst l.
    destruct i as [|[|[|i]]]; [| | |lia]; discriminate Hd.
Defined.

(** Outside the hypothesis of C10: a list of two elements makes
    [absXyzFromNbt] panic on the third index, and a list with an integer
    among its first three elements gives [BadType]. *)
Lemma absXyzFromNbt_other_inputs :
  absXyzFromNbt player_short "/Pos" = Panicked
  /\ absXyzFromNbt player_int "/Pos"
     = Returned zero_AbsXyz (Some (BadType "/Pos"))
  /\ absXyzFromNbt player_ok "/Rot"
     = Returned zero_AbsXyz (Some (BadType "/Rot")).
Proof. by repeat split. Qed.

End WorldStoreFacts.

(** * Further properties of the coordinator *)

Module GameMore.
Import GameModel GameInvariant GameFacts.

Section More.
Context `{C : Collaborators}.

(** ** The record of calls *)

Lemma new_calls_run (f : M unit) (w w1 : World) (es : list Event) :
  f w = (tt, add_out es w1) -> out w1 = out w -> new_calls f w = es.
Proof.
  intros Hf Hout. unfold new_calls. rewrite Hf. cbn [snd add_out out].
  rewrite Hout. apply drop_app_length.
Qed.

Lemma receivers_transmit_all (packet : Packet) (l : list PlayerRef) :
  receivers (transmit_all packet l) = l.
Proof.
  unfold receivers, transmit_all. induction l as [|r l IH]; [done|].
  cbn. by rewrite IH.
Qed.

Lemma receivers_app (es es' : list Event) :
  receivers (es ++ es') = receivers es ++ receivers es'.
Proof. unfold receivers. apply omap_app. Qed.

Lemma elem_of_transmit_all (packet packet' : Packet) (r : PlayerRef)
    (l : list PlayerRef) :
  Transmit r packet' ∈ transmit_all packet l <-> r ∈ l /\ packet' = packet.
Proof.
  unfold transmit_all. rewrite list_elem_of_fmap. split.
  - intros [r' [Heq Hin]]. inversion Heq; subst. by split.
  - intros [Hin ->]. by exists r.
Qed.


Lemma NoDup_registered (w : World) : one_key_each w -> NoDup (registered w).
Proof.
  intros Hone. unfold registered. apply NoDup_fmap_2_strong.
  - intros [id1 r1] [id2 r2] H1 H2 Heq. cbn in Heq. subst r2.
    rewrite range_players_perm in H1, H2.
    apply elem_of_map_to_list in H1, H2. f_equal. by eapply Hone.
  - rewrite range_players_perm. apply NoDup_map_to_list.
Qed.


(** ** Broadcasts *)


(** X2. When no player is registered under two ids, a chat message and a
    Tick each reach every registered player exactly once: the receivers of
    the calls they add are the registered players, without repetition. *)
Theorem broadcast_once (w : World) (message : string) :
  one_key_each w ->
  let chat := new_calls (SendChatMessage message) w in
  let update := new_calls tick w in
  (chat = transmit_all (WriteChatMessage message) (receivers chat)
   /\ update
      = transmit_all (WriteTimeUpdate (time (game (snd (tick w)))))
                     (receivers update))
  /\ (receivers chat = registered w /\ receivers update = registered w)
  /\ NoDup (registered w).
Proof.
  intros Hone chat update.
  assert (chat = transmit_all (WriteChatMessage message) (registered w))
    as Hchat.
  { eapply new_calls_run; [apply MulticastPacket_all|done]. }
  assert (update
          = transmit_all (WriteTimeUpdate (wrap64 (time (game w) + 20)))
                         (registered w)) as Htick.
  { eapply new_calls_run; [apply tick_run|done]. }
  rewrite Hchat, Htick, !receivers_transmit_all, (tick_run w).
  split; [done|]. split; [done|]. by apply NoDup_registered.
Qed.

(** X3. While no bound leaves the range of [ChunkCoord], [PlayersInRadius]
    yields exactly the registered players whose chunk lies between
    [loc.x - ChunkRadius] and [loc.x + ChunkRadius + 1] on the x axis and
    between [loc.z - ChunkRadius] and [loc.x + ChunkRadius + 1] on the z
    axis, and leaves the world as it is. *)
Theorem PlayersInRadius_yields (loc : ChunkXZ) (w : World) (r : PlayerRef) :
  0 < coord_bits -> 0 <= ChunkRadius ->
  - 2 ^ (coord_bits - 1) <= x loc - ChunkRadius ->
  x loc + ChunkRadius + 1 < 2 ^ (coord_bits - 1) ->
  - 2 ^ (coord_bits - 1) <= z loc - ChunkRadius < 2 ^ (coord_bits - 1) ->
  (r ∈ fst (PlayersInRadius loc w)
   <-> r ∈ registered w
       /\ (x loc - ChunkRadius <= x (chunk_of w r) <= x loc + ChunkRadius + 1)
       /\ (z loc - ChunkRadius <= z (chunk_of w r)
           <= x loc + ChunkRadius + 1))
  /\ snd (PlayersInRadius loc w) = w.
Proof.
  intros Hb HR H1 H2 H3. split; [|done].
  unfold PlayersInRadius, gets. cbn [fst]. fold (registered w).
  rewrite list_elem_of_In, filter_In, <- list_elem_of_In.
  by rewrite in_bounds_no_overflow.
Qed.


(** X5. When the pickup spawn packet is written, [AddPickupItem] sends it
    to the registered players whose chunk passes the bounds test around the
    item's chunk, once for each of their directory entries, and to no one
    else; the item is in the item directory under its id and the player
    directory is untouched. *)
Theorem AddPickupItem_spawn_sent (w : World) (item : ItemRef) (buf : Packet) :
  let i0 := itemAt w item in
  let reg := AddEntity (entityManager (game w)) (iEntity i0) in
  let id := EntityID_of (snd reg) in
  WritePickupSpawn id (iposition i0) (idata i0) = inl buf ->
  let w' := snd (AddPickupItem item w) in
  let calls := new_calls (AddPickupItem item) w in
  calls = transmit_all buf (receivers calls)
  /\ (forall r, r ∈ receivers calls
                <-> r ∈ registered w
                    /\ in_bounds (ToChunkXZ (iposition i0)) (chunk_of w r)
                       = true)
  /\ pickupItems (game w') !! id = Some item
  /\ entityManager (game w') = fst reg
  /\ players (game w') = players (game w).
Proof.
  intros i0 reg id Hbuf w' calls.
  pose proof (AddPickupItem_run w item) as Hrun. cbv zeta in Hrun.
  fold i0 reg id in Hrun. rewrite Hbuf in Hrun.
  assert (calls
          = transmit_all buf
              (List.filter
                 (fun r => in_bounds (ToChunkXZ (iposition i0)) (chunk_of w r))
                 (registered w))) as Hcalls.
  { eapply new_calls_run; [exact Hrun|done]. }
  unfold w'. rewrite Hcalls, Hrun, receivers_transmit_all. cbn [snd].
  refine (conj _ (conj _ (conj _ (conj _ _)))); try done.
  - intros r. rewrite list_elem_of_In, filter_In, <- list_elem_of_In. tauto.
  - cbn. apply lookup_insert_eq.
Qed.

(** ** Joining and leaving *)

Lemma concat_map_elem {A B : Type} (f : A -> list B) (a : A) (l : list A) :
  a ∈ l -> exists pre post, concat (map f l) = pre ++ f a ++ post.
Proof.
  intros Hin. apply list_elem_of_split in Hin as (l1 & l2 & ->).
  exists (concat (map f l1)), (concat (map f l2)).
  by rewrite map_app, concat_app.
Qed.

(** The calls [AddPlayer] adds, and the fields of the world it leaves that
    the radius set and the spawn packets are read from. *)
Lemma AddPlayer_calls (w : World) (player : PlayerRef) :
  let w' := snd (AddPlayer player w) in
  let near := others player (radius_set w' player) in
  new_calls (AddPlayer player) w
  = transmit_all
      (WriteChatMessage (name (playerAt w player) +:+ " has joined"))
      (registered w')
    ++ transmit_all (spawn_packet w' player) near
    ++ [Transmit player (concat (map (spawn_packet w') near))].
Proof.
  intros w' near. unfold near, w'.
  pose proof (AddPlayer_run w player) as Hrun. cbv zeta in Hrun.
  rewrite Hrun. cbn [snd]. eapply new_calls_run; [exact Hrun|done].
Qed.

(** X6. A player of the newcomer's radius set, other than the newcomer, is
    sent the newcomer's spawn, and its own spawn is part of the buffer that
    is the last thing sent to the newcomer. *)
Theorem AddPlayer_mutual_spawn (w : World) (player r : PlayerRef) :
  let w' := snd (AddPlayer player w) in
  let calls := new_calls (AddPlayer player) w in
  r ∈ radius_set w' player -> r <> player ->
  Transmit r (spawn_packet w' player) ∈ calls
  /\ exists pre post,
       last calls
       = Some (Transmit player (pre ++ spawn_packet w' r ++ post)).
Proof.
  intros w' calls Hr Hne. unfold calls. rewrite AddPlayer_calls. fold w'.
  assert (r ∈ others player (radius_set w' player)) as Hnear
    by (by apply elem_of_others).
  split.
  - apply elem_of_app. right. apply elem_of_app. left.
    by apply elem_of_transmit_all.
  - destruct (concat_map_elem (spawn_packet w') r _ Hnear)
      as (pre & post & Heq).
    exists pre, post. rewrite <- Heq, !app_assoc. apply last_snoc.
Qed.

(** X7. A player outside the newcomer's radius set, other than the
    newcomer, is sent nothing by [AddPlayer] but the join chat message, and
    that only if it is registered. *)
Theorem AddPlayer_outsider (w : World) (player c : PlayerRef)
    (packet : Packet) :
  let w' := snd (AddPlayer player w) in
  c <> player -> c ∉ radius_set w' player ->
  Transmit c packet ∈ new_calls (AddPlayer player) w ->
  packet = WriteChatMessage (name (playerAt w player) +:+ " has joined")
  /\ c ∈ registered w'.
Proof.
  intros w' Hne Hout. rewrite AddPlayer_calls. fold w'.
  rewrite !elem_of_app, !elem_of_transmit_all, list_elem_of_singleton.
  intros [[Hin ->]|[[Hin _]|Heq]].
  - by split.
  - apply elem_of_others in Hin as [_ Hin]. contradiction.
  - inversion Heq. contradiction.
Qed.

(** X8. [AddPlayer] writes the directory entry of the id the registration
    gave, whatever was there: a player that was registered under that id,
    and under no other, is no longer registered and is sent nothing. *)
Theorem AddPlayer_replaces_entry (w : World) (player q : PlayerRef)
    (packet : Packet) :
  let reg :=
    AddEntity (entityManager (game w)) (Entity_of (playerAt w player)) in
  let id := EntityID_of (snd reg) in
  let w' := snd (AddPlayer player w) in
  q <> player ->
  (forall k, players (game w) !! k = Some q <-> k = id) ->
  players (game w') !! id = Some player
  /\ (q ∉ registered w')
  /\ (Transmit q packet ∉ new_calls (AddPlayer player) w).
Proof.
  intros reg id w' Hne Hq.
  assert (players (game w') = <[id := player]> (players (game w))) as Hdir.
  { unfold w'. by rewrite (AddPlayer_run w player). }
  assert (q ∉ registered w') as Hnot.
  { rewrite elem_of_registered, Hdir. intros [k Hk].
    apply lookup_insert_Some in Hk as [[_ Hk]|[Hk1 Hk2]]; [congruence|].
    by apply Hq in Hk2. }
  split; [by rewrite Hdir, lookup_insert_eq|]. split; [exact Hnot|].
  rewrite AddPlayer_calls. fold w'.
  rewrite !elem_of_app, !elem_of_transmit_all, list_elem_of_singleton.
  intros [[Hin _]|[[Hin _]|Heq]].
  - contradiction.
  - apply elem_of_others in Hin as [_ Hin].
    apply elem_of_radius_set in Hin as [Hin _]. contradiction.
  - inversion Heq. contradiction.
Qed.

(** ** Fixed-width arithmetic, continued *)

Lemma wrap_wrap_add (bits a b : Z) :
  wrap bits (wrap bits a + b) = wrap bits (a + b).
Proof.
  unfold wrap.
  replace ((a + 2 ^ (bits - 1)) `mod` 2 ^ bits - 2 ^ (bits - 1) + b
           + 2 ^ (bits - 1))
    with ((a + 2 ^ (bits - 1)) `mod` 2 ^ bits + b) by lia.
  rewrite Zplus_mod_idemp_l. f_equal. f_equal. lia.
Qed.

Lemma wrap64_range (v : Z) : minInt64 <= wrap64 v <= maxInt64.
Proof.
  unfold wrap64, wrap, minInt64, maxInt64. change (64 - 1) with 63.
  pose proof (Z.mod_pos_bound (v + 2 ^ 63) (2 ^ 64) ltac:(lia)) as H.
  change (2 ^ 64) with (2 * 2 ^ 63) in *. lia.
Qed.

(** ** The directory invariant *)

Lemma keyed_one_key (w : World) : keyed_by_id w -> one_key_each w.
Proof.
  intros Hk id1 id2 r H1 H2. apply Hk in H1, H2. congruence.
Qed.

Lemma AddPlayer_directory (w : World) (player : PlayerRef) :
  let reg :=
    AddEntity (entityManager (game w)) (Entity_of (playerAt w player)) in
  let w' := snd (AddPlayer player w) in
  players (game w') = <[EntityID_of (snd reg) := player]> (players (game w))
  /\ (forall r, playerAt w' r
                = if decide (r = player)
                  then with_entity (playerAt w player) (snd reg)
                  else playerAt w r)
  /\ time (game w') = time (game w).
Proof.
  intros reg w'. unfold w'. rewrite (AddPlayer_run w player). by repeat split.
Qed.

Lemma AddPlayer_keyed (w : World) (player : PlayerRef) :
  keyed_by_id w -> player ∉ registered w ->
  keyed_by_id (snd (AddPlayer player w)).
Proof.
  intros Hk Hnew id r Hr.
  destruct (AddPlayer_directory w player) as (Hdir & Hheap & _).
  rewrite Hdir in Hr. rewrite Hheap.
  apply lookup_insert_Some in Hr as [[<- <-]|[Hne Hr]].
  - by rewrite decide_True.
  - destruct (decide (r = player)) as [->|Hne'].
    + exfalso. apply Hnew, elem_of_registered. by exists id.
    + by apply Hk.
Qed.

Lemma RemovePlayer_keyed (w : World) (player : PlayerRef) :
  keyed_by_id w ->
  keyed_by_id (snd (RemovePlayer player w))
  /\ player ∉ registered (snd (RemovePlayer player w)).
Proof.
  intros Hk.
  pose proof (RemovePlayer_run w player) as Hrem. cbv zeta in Hrem.
  rewrite Hrem. cbn [snd]. split.
  - intros id r Hr. cbn [add_out game players playerAt] in *.
    apply lookup_delete_Some in Hr as [Hne Hr].
    destruct (decide (r = player)) as [->|Hne'].
    + by apply Hk in Hr.
    + by apply Hk.
  - rewrite elem_of_registered. cbn [add_out game players].
    intros [id Hr]. apply lookup_delete_Some in Hr as [Hne Hr].
    by apply Hk in Hr.
Qed.

Lemma tick_keyed (w : World) : keyed_by_id w -> keyed_by_id (snd (tick w)).
Proof. intros Hk. by rewrite (tick_run w). Qed.

Lemma AddPickupItem_keyed (w : World) (item : ItemRef) :
  keyed_by_id w -> keyed_by_id (snd (AddPickupItem item w)).
Proof.
  intros Hk. pose proof (AddPickupItem_run w item) as Hitem.
  cbv zeta in Hitem. rewrite Hitem. cbn [snd].
  destruct (WritePickupSpawn _ _ _); exact Hk.
Qed.

(** X9. [AddPlayer] of a player that is not registered keeps every entry
    of the directory under its player's own id, and leaves the player
    registered under its id and under no other. *)
Theorem AddPlayer_keeps_keyed (w : World) (player : PlayerRef) :
  keyed_by_id w -> player ∉ registered w ->
  let w' := snd (AddPlayer player w) in
  keyed_by_id w'
  /\ (forall id, players (game w') !! id = Some player
                 <-> id = EntityID_of (Entity_of (playerAt w' player))).
Proof.
  intros Hk Hnew w'. split; [by apply AddPlayer_keyed|].
  destruct (AddPlayer_directory w player) as (Hdir & Hheap & _).
  fold w' in Hdir, Hheap. intros id.
  rewrite Hdir, Hheap, decide_True, lookup_insert_Some by done.
  cbn [with_entity Entity_of]. split.
  - intros [[<- _]|[_ Hr]]; [done|].
    exfalso. apply Hnew, elem_of_registered. by exists id.
  - intros ->. by left.
Qed.

(** X10. A directory whose entries sit under their players' own ids stays
    so through [RemovePlayer], [tick] and [AddPickupItem]; after
    [RemovePlayer] the player is not registered; and in such a directory no
    player is registered twice. *)
Theorem keyed_by_id_kept (w : World) (player : PlayerRef) (item : ItemRef) :
  keyed_by_id w ->
  (keyed_by_id (snd (RemovePlayer player w))
   /\ player ∉ registered (snd (RemovePlayer player w)))
  /\ keyed_by_id (snd (tick w))
  /\ keyed_by_id (snd (AddPickupItem item w))
  /\ one_key_each w.
Proof.
  intros Hk. split; [by apply RemovePlayer_keyed|].
  split; [by apply tick_keyed|]. split; [by apply AddPickupItem_keyed|].
  by apply keyed_one_key.
Qed.

Lemma time_in_range_kept (w : World) :
  reachable w -> minInt64 <= time (game w) <= maxInt64.
Proof.
  induction 1 as [w Hnew|w player _ IH _|w player _ IH|w item _ IH|w _ IH].
  - rewrite Hnew. by cbn.
  - by destruct (AddPlayer_directory w player) as (_ & _ & ->).
  - by rewrite (RemovePlayer_run w player).
  - pose proof (AddPickupItem_run w item) as Hitem. cbv zeta in Hitem.
    rewrite Hitem. cbn [snd]. by destruct (WritePickupSpawn _ _ _).
  - rewrite (tick_run w). cbn. apply wrap64_range.
Qed.

(** X11. In every world reached from a new game by [AddPlayer] of
    unregistered players, [RemovePlayer], [AddPickupItem] and Ticks, each
    directory entry sits under its player's own id, so that a registered
    player is found under its id and under no other key, no player is
    registered twice, and the clock is within [int64]. *)
Theorem reachable_invariants (w : World) :
  reachable w ->
  keyed_by_id w
  /\ one_key_each w
  /\ (forall player,
        player ∈ registered w ->
        forall id, players (game w) !! id = Some player
                   <-> id = EntityID_of (Entity_of (playerAt w player)))
  /\ minInt64 <= time (game w) <= maxInt64.
Proof.
  intros Hreach.
  assert (keyed_by_id w) as Hk.
  { induction Hreach as [w Hnew|w player _ IH Hfresh|w player _ IH
                         |w item _ IH|w _ IH].
    - intros id r Hr. rewrite Hnew in Hr. cbn [NewGame_fields players] in Hr.
      by rewrite lookup_empty in Hr.
    - by apply AddPlayer_keyed.
    - by apply RemovePlayer_keyed.
    - by apply AddPickupItem_keyed.
    - by apply tick_keyed. }
  split; [exact Hk|]. split; [by apply keyed_one_key|].
  split; [|by apply time_in_range_kept].
  intros player Hin id. split; [intros H; symmetry; by apply Hk|].
  intros ->.
  apply elem_of_registered in Hin as [id Hid].
  by rewrite (Hk id player Hid).
Qed.


(** ** The clock *)

Lemma ticks_run (n : nat) (w : World) :
  exists es,
    ticks (S n) w
    = (tt, add_out es
             {| game := {| entityManager := entityManager (game w);
                           players := players (game w);
                           pickupItems := pickupItems (game w);
                           time := wrap64 (time (game w)
                                           + 20 * Z.of_nat (S n)) |};
                playerAt := playerAt w; itemAt := itemAt w; out := out w |}).
Proof.
  revert w. induction n as [|n IH]; intros w.
  - eexists. cbn [ticks]. erewrite bind_run by apply tick_run.
    unfold mret, M_ret. reflexivity.
  - change (ticks (S (S n))) with (tick ≫= λ _ : (), ticks (S n)).
    erewrite bind_run by apply tick_run.
    destruct (IH (add_out
                    (transmit_all
                       (WriteTimeUpdate (wrap64 (time (game w) + 20)))
                       (registered w))
                    {| game := {| entityManager := entityManager (game w);
                                  players := players (game w);
                                  pickupItems := pickupItems (game w);
                                  time := wrap64 (time (game w) + 20) |};
                       playerAt := playerAt w; itemAt := itemAt w;
                       out := out w |})) as [es Hes].
    rewrite Hes. eexists. cbn [add_out game entityManager players pickupItems
                               time playerAt itemAt out].
    unfold wrap64. rewrite wrap_wrap_add.
    replace (time (game w) + 20 + 20 * Z.of_nat (S n))
      with (time (game w) + 20 * Z.of_nat (S (S n))) by lia.
    unfold add_out. cbn [game playerAt itemAt out].
    rewrite <- app_assoc. reflexivity.
Qed.

(** X13. After one Tick or more the clock is its old value plus 20 for
    each Tick, reduced to [int64], and so always within [int64]; Ticks
    change nothing else of the game; and [n + m] Ticks are [n] Ticks
    followed by [m]. *)
Theorem ticks_clock (n m : nat) (w : World) :
  let w' := snd (ticks (S n) w) in
  time (game w') = wrap64 (time (game w) + 20 * Z.of_nat (S n))
  /\ minInt64 <= time (game w') <= maxInt64
  /\ (entityManager (game w') = entityManager (game w)
      /\ players (game w') = players (game w)
      /\ pickupItems (game w') = pickupItems (game w))
  /\ ticks (n + m) w = ticks m (snd (ticks n w)).
Proof.
  intros w'. unfold w'. destruct (ticks_run n w) as [es ->]. cbn [snd].
  cbn [add_out game time entityManager players pickupItems].
  split; [done|]. split; [apply wrap64_range|]. split; [done|].
  clear. revert w. induction n as [|n IH]; intros w; [done|].
  change (ticks (S n + m)) with (tick ≫= λ _ : (), ticks (n + m)).
  change (ticks (S n)) with (tick ≫= λ _ : (), ticks n).
  unfold mbind, M_bind. destruct (tick w) as [[] w1]. apply IH.
Qed.

End More.

(** ** On the sample worlds *)

Import Sample MoreSamples.

Lemma pair_keyed : keyed_by_id pair.
Proof.
  intros id r Hr. apply pair_registration in Hr as [[-> ->]|[-> ->]];
    reflexivity.
Qed.

Lemma pair_newcomer : 3%positive ∉ registered pair.
Proof.
  rewrite elem_of_registered. intros [id Hid].
  apply pair_registration in Hid as [[_ H]|[_ H]]; discriminate.
Qed.

(** X2 on [pair]. *)
Lemma broadcast_once_witness : NoDup (registered pair).
Proof.
  refine (proj2 (proj2 (broadcast_once pair "hello" _))).
  intros id1 id2 r H1 H2.
  apply pair_registration in H1 as [[-> ->]|[-> ->]];
    apply pair_registration in H2 as [[-> H]|[-> H]];
    first [reflexivity | discriminate].
Defined.

(** X3 on [pair], around the origin: [bob], eleven chunks out on the x
    axis, is yielded. *)
Lemma PlayersInRadius_yields_witness :
  2%positive ∈ fst (PlayersInRadius {| x := 0; z := 0 |} pair).
Proof.
  refine (proj2 (proj1 (PlayersInRadius_yields {| x := 0; z := 0 |} pair
                          2%positive _ _ _ _ _)) _).
  - reflexivity.
  - vm_compute. discriminate.
  - vm_compute. discriminate.
  - reflexivity.
  - vm_compute. split; [discriminate|reflexivity].
  - split.
    + apply elem_of_registered. by exists 6.
    + vm_compute. repeat split; discriminate.
Defined.

(** X5 on [pair], whose items can be written: the item is stored under id
    7. *)
Lemma AddPickupItem_spawn_sent_witness :
  pickupItems (game (snd (AddPickupItem 1%positive pair))) !! 7
  = Some 1%positive.
Proof.
  refine (proj1 (proj2 (proj2
            (AddPickupItem_spawn_sent pair 1%positive
               (Byte.x15 :: be_bytes 4 7 ++ be_bytes 2 1
                         ++ xyz_bytes (0, 0, 0)) _)))).
  reflexivity.
Defined.

Lemma pair_newcomer_radius :
  radius_set (snd (AddPlayer 3%positive pair)) 3%positive
  = [3%positive; 2%positive].
Proof. by vm_compute. Qed.

(** X6 on [pair]: the newcomer at address 3 stands in [bob]'s chunk. *)
Lemma AddPlayer_mutual_spawn_witness :
  Transmit 2%positive
    (spawn_packet (snd (AddPlayer 3%positive pair)) 3%positive)
  ∈ new_calls (AddPlayer 3%positive) pair.
Proof.
  refine (proj1 (AddPlayer_mutual_spawn pair 3%positive 2%positive _ _)).
  - rewrite pair_newcomer_radius. right. left.
  - discriminate.
Defined.

(** X7 on [pair]: [ann] is outside the newcomer's radius set. *)
Lemma AddPlayer_outsider_witness :
  1%positive ∈ registered (snd (AddPlayer 3%positive pair)).
Proof.
  refine (proj2 (AddPlayer_outsider pair 3%positive 1%positive
                   (WriteChatMessage "bob has joined") _ _ _)).
  - discriminate.
  - rewrite pair_newcomer_radius. intros Hin.
    apply elem_of_cons in Hin as [Hin|Hin]; [discriminate|].
    by apply list_elem_of_singleton in Hin.
  - rewrite AddPlayer_calls. apply elem_of_app. left.
    apply elem_of_transmit_all. split; [|reflexivity].
    apply elem_of_registered. exists 5. by vm_compute.
Defined.

(** X8 on [taken]: the newcomer is given id 7, which [ann] holds. *)
Lemma AddPlayer_replaces_entry_witness :
  1%positive ∉ registered (snd (AddPlayer 2%positive taken)).
Proof.
  refine (proj1 (proj2 (AddPlayer_replaces_entry taken 2%positive 1%positive
                          [] _ _))).
  - discriminate.
  - intros k. unfold taken, world_of. cbn [game players].
    rewrite lookup_singleton_Some. cbn. split; [by intros [<- _]|].
    by intros ->.
Defined.

(** X9 on [pair] and the newcomer at address 3. *)
Lemma AddPlayer_keeps_keyed_witness :
  keyed_by_id (snd (AddPlayer 3%positive pair)).
Proof.
  exact (proj1 (AddPlayer_keeps_keyed pair 3%positive pair_keyed
                  pair_newcomer)).
Defined.

(** X11 on the world a new game gets to by adding the player at address
    1. *)
Lemma reachable_invariants_witness :
  keyed_by_id (snd (AddPlayer 1%positive fresh)).
Proof.
  refine (proj1 (reachable_invariants (snd (AddPlayer 1%positive fresh)) _)).
  apply reach_AddPlayer; [by apply reach_NewGame|].
  rewrite elem_of_registered. intros [id Hid].
  cbn [fresh game NewGame_fields players] in Hid.
  by rewrite lookup_empty in Hid.
Defined.

(** X10 on [pair], with [bob] removed. *)
Lemma keyed_by_id_kept_witness :
  keyed_by_id (snd (RemovePlayer 2%positive pair)).
Proof.
  exact (proj1 (proj1 (keyed_by_id_kept pair 2%positive 1%positive
                         pair_keyed))).
Defined.

End GameMore.

(** * Further properties of the world store *)

Module WorldStoreMore.
Import WorldStoreModel DimensionModel WorldStoreFacts.

Section More.
Context `{C : Collaborators}.

(** X14. [LoadWorldStore] starts a service only when it returns a world:
    with an error nothing has been started; with a world, the services
    started are the persistent store's, the generator's of the world's
    seed, and last the combinator over the two, which is the world's chunk
    store; and the world records the path and the level data it was loaded
    from. *)
Theorem LoadWorldStore_services (worldPath : string) :
  match LoadWorldStore worldPath with
  | (inl _, started) => started = []
  | (inr world, started) =>
      exists store,
        started = [ChunkService (Persistent store);
                   ChunkService (TestGenerator (Seed world));
                   ChunkStore world]
        /\ ChunkStore world
           = ChunkService
               (MultiStore [ChunkService (Persistent store);
                            ChunkService (TestGenerator (Seed world))])
        /\ WorldPath world = worldPath
        /\ loadLevelData worldPath = inr (LevelData world)
        /\ ChunkStoreForLevel worldPath (LevelData world) DimensionNormal
           = inr store
  end.
Proof.
  unfold LoadWorldStore.
  destruct (loadLevelData worldPath) as [e|levelData]; [done|].
  destruct (as_Int (NamedTag_Lookup levelData "/Data/SpawnX")); [|done].
  destruct (as_Int (NamedTag_Lookup levelData "/Data/SpawnY")); [|done].
  destruct (as_Int (NamedTag_Lookup levelData "/Data/SpawnZ")); [|done].
  destruct (ChunkStoreForLevel worldPath levelData DimensionNormal)
    as [e|store] eqn:Hstore; [done|].
  exists store. by repeat split.
Qed.

(** X15. [LoadWorldStore] returns the error of the first step that fails,
    in the order: opening [level.dat], the gzip reader, the tag decoder, the
    spawn tags, the persistent chunk store; the steps after it are not
    reached, so a level without spawn tags gives the missing-spawn error
    even where the chunk store would not open. *)
Theorem LoadWorldStore_first_failure (worldPath : string) (e : os_Error) :
  let name := path_Join worldPath "level.dat" in
  (os_Open name = inl e -> LoadWorldStore worldPath = (inl e, []))
  /\ (forall file,
        os_Open name = inr file -> gzip_NewReader file = inl e ->
        LoadWorldStore worldPath = (inl e, []))
  /\ (forall file reader,
        os_Open name = inr file -> gzip_NewReader file = inr reader ->
        nbt_Read reader = inl e ->
        LoadWorldStore worldPath = (inl e, []))
  /\ (forall levelData,
        loadLevelData worldPath = inr levelData ->
        (as_Int (NamedTag_Lookup levelData "/Data/SpawnX") = None
         \/ as_Int (NamedTag_Lookup levelData "/Data/SpawnY") = None
         \/ as_Int (NamedTag_Lookup levelData "/Data/SpawnZ") = None) ->
        ChunkStoreForLevel worldPath levelData DimensionNormal = inl e ->
        LoadWorldStore worldPath = (inl missing_spawn, []))
  /\ (forall levelData,
        loadLevelData worldPath = inr levelData ->
        is_Some (as_Int (NamedTag_Lookup levelData "/Data/SpawnX")) ->
        is_Some (as_Int (NamedTag_Lookup levelData "/Data/SpawnY")) ->
        is_Some (as_Int (NamedTag_Lookup levelData "/Data/SpawnZ")) ->
        ChunkStoreForLevel worldPath levelData DimensionNormal = inl e ->
        LoadWorldStore worldPath = (inl e, [])).
Proof.
  intros name. unfold LoadWorldStore, loadLevelData. fold name.
  refine (conj _ (conj _ (conj _ (conj _ _)))).
  - by intros ->.
  - by intros file -> ->.
  - by intros file reader -> -> ->.
  - intros levelData -> Hmiss _.
    destruct (as_Int (NamedTag_Lookup levelData "/Data/SpawnX")),
             (as_Int (NamedTag_Lookup levelData "/Data/SpawnY")),
             (as_Int (NamedTag_Lookup levelData "/Data/SpawnZ"));
      try reflexivity.
    destruct Hmiss as [|[|]]; discriminate.
  - intros levelData -> [vx ->] [vy ->] [vz ->] ->. reflexivity.
Qed.

(** X16. [ChunkStoreForDimension] starts the service it returns and no
    other, and nothing when it fails; for the normal dimension of a world
    that [LoadWorldStore] returned, it opens the level of that world again
    and so returns a service over the persistent store that is the first
    tier of the world's chunk store. *)
Theorem ChunkStoreForDimension_services (worldPath : string)
    (world : WorldStore) (started : list IChunkStore)
    (dimension : DimensionId) :
  LoadWorldStore worldPath = (inr world, started) ->
  (exists store,
     ChunkStoreForDimension world DimensionNormal
     = (inr (ChunkService (Persistent store)),
        [ChunkService (Persistent store)])
     /\ head started = Some (ChunkService (Persistent store)))
  /\ match ChunkStoreForDimension world dimension with
     | (inl _, served) => served = []
     | (inr store, served) => served = [store]
     end.
Proof.
  intros Hload. pose proof (LoadWorldStore_services worldPath) as H.
  rewrite Hload in H. destruct H as (store & -> & _ & Hpath & _ & Hstore).
  split.
  - exists store. unfold ChunkStoreForDimension.
    destruct (loadLevelData worldPath); by rewrite Hpath, Hstore.
  - unfold ChunkStoreForDimension.
    by destruct (ChunkStoreForLevel _ _ dimension).
Qed.

(** ** Positions read from tags *)

(** X17. [absXyzFromNbt] panics exactly when the value at the path is a
    list of fewer than three elements, whatever the elements are. *)
Theorem absXyzFromNbt_panics_iff (tag : ITag) (path : string) :
  absXyzFromNbt tag path = Panicked
  <-> exists l, ITag_Lookup tag path = Some (List l) /\ (length l < 3)%nat.
Proof.
  unfold absXyzFromNbt.
  destruct (ITag_Lookup tag path) as [t|]; cbn [as_List].
  2:{ split; [done|]. by intros (l & Hl & _). }
  destruct t as [| | | | | | | |l|];
    try (split; [done|]; by intros (l & Hl & _)).
  split.
  - intros H. exists l. split; [done|].
    destruct l as [|e0 [|e1 [|e2 rest]]]; cbn; try lia.
    exfalso. cbn [lookup list_lookup] in H.
    by destruct (as_Double (Some e0)), (as_Double (Some e1)),
                (as_Double (Some e2)).
  - intros (l' & Hl & Hlen). inversion Hl; subst l'.
    destruct l as [|e0 [|e1 [|e2 rest]]]; cbn in Hlen; try lia; done.
Qed.

(** X18. [absXyzFromNbt] returns no error but [BadType] of the path it was
    given, and with it the zero position; when it returns no error, the
    value at the path is a list that starts with three [Double] tags and the
    position is made of their values, in order. *)
Theorem absXyzFromNbt_results (tag : ITag) (path : string) (pos : AbsXyz) :
  (forall e, absXyzFromNbt tag path = Returned pos (Some e) ->
             e = BadType path /\ pos = zero_AbsXyz)
  /\ (absXyzFromNbt tag path = Returned pos None ->
      exists rest,
        ITag_Lookup tag path
        = Some (List (Double (absX pos) :: Double (absY pos)
                        :: Double (absZ pos) :: rest))).
Proof.
  unfold absXyzFromNbt.
  destruct (as_List (ITag_Lookup tag path)) as [l|] eqn:Hl.
  2:{ split; [intros e H; by inversion H|done]. }
  assert (ITag_Lookup tag path = Some (List l)) as ->.
  { destruct (ITag_Lookup tag path) as [[]|]; cbn in Hl; congruence. }
  destruct l as [|e0 [|e1 [|e2 rest]]]; cbn [lookup list_lookup];
    try (split; [intros e H; discriminate H|done]).
  destruct e0, e1, e2; cbn [as_Double];
    try (split; [intros e H; by inversion H|done]).
  split; [done|]. intros H. inversion H; subst. by exists rest.
Qed.

Lemma string_app_inj (p s t : string) : p +:+ s = p +:+ t -> s = t.
Proof.
  induction p as [|c p IH]; cbn; [done|]. intros H. apply IH. by inversion H.
Qed.

(** X19. The message of a [BadType] error is the fixed prefix followed by
    the path, so two such errors with the same message are errors of the
    same path, and the message is never the missing-spawn message. *)
Theorem BadType_String_inj (p q : string) :
  Error_String (BadType p) = "Bad type in level.dat for " +:+ p
  /\ (Error_String (BadType p) = Error_String (BadType q) -> p = q)
  /\ Error_String (BadType p) <> Error_String missing_spawn.
Proof.
  split; [done|]. split.
  - cbn [Error_String]. apply string_app_inj.
  - cbn. discriminate.
Qed.

End More.

(** ** On the sample worlds *)

Import WorldSample.

(** X16 on the world loaded from [ints]. *)
Lemma ChunkStoreForDimension_services_witness :
  exists store,
    ChunkStoreForDimension ints_world DimensionNormal
    = (inr (ChunkService (Persistent store)),
       [ChunkService (Persistent store)])
    /\ head [ChunkService (Persistent stored);
             ChunkService (TestGenerator 42); ChunkStore ints_world]
       = Some (ChunkService (Persistent store)).
Proof.
  exact (proj1 (ChunkStoreForDimension_services "ints" ints_world
                  [ChunkService (Persistent stored);
                   ChunkService (TestGenerator 42); ChunkStore ints_world]
                  0 eq_refl)).
Defined.

End WorldStoreMore.

(** * The start position *)

Module StartPositionFacts.
Import WorldStoreModel StartPositionModel.

Section StartPosition.
Context `{C : WorldStoreModel.Collaborators}
        `{S : StartPositionModel.Collaborators}.

Lemma unchecked_Double_Some (pos : option ITag) (i : nat) (v : float) :
  unchecked_Double pos i = Some v
  <-> exists l, pos = Some (List l) /\ l !! i = Some (Double v).
Proof.
  unfold unchecked_Double. split.
  - destruct pos as [[| | | | | | | |l|]|]; try done.
    destruct (l !! i) as [[]|] eqn:E; try done.
    intros H; inversion H; subst. by exists l.
  - intros (l & -> & ->). done.
Qed.

(** X20. [loadStartPosition] assigns [StartPosition] exactly when the file
    opens, decodes, and holds at [/Data/Player/Pos] a list that starts with
    three [Double] tags, whose values make the position; it exits with the
    error's message exactly when the file does not open or does not decode;
    in every other case it panics. *)
Theorem loadStartPosition_outcome (worldPath : string) :
  let name := path_Join worldPath "level.dat" in
  (forall p,
     loadStartPosition worldPath = Assigned p
     <-> exists file level vx vy vz rest,
           os_Open name = inr file /\ nbt_Read file = inr level
           /\ Lookup level "/Data/Player/Pos"
              = Some (List (Double vx :: Double vy :: Double vz :: rest))
           /\ p = XYZ_of (AbsoluteCoord_of vx) (AbsoluteCoord_of vy)
                         (AbsoluteCoord_of vz))
  /\ (forall message,
        loadStartPosition worldPath = Exited message
        <-> exists e,
              message = "loadStartPosition: " +:+ Error_String e
              /\ (os_Open name = inl e
                  \/ exists file,
                       os_Open name = inr file /\ nbt_Read file = inl e)).
Proof.
  intros name. unfold loadStartPosition. fold name. split.
  - intros p. split.
    + destruct (os_Open name) as [e|file] eqn:Ho; [done|].
      destruct (nbt_Read file) as [e|level] eqn:Hr; [done|].
      destruct (unchecked_Double _ 0) as [vx|] eqn:E0; [|done].
      destruct (unchecked_Double _ 1) as [vy|] eqn:E1; [|done].
      destruct (unchecked_Double _ 2) as [vz|] eqn:E2; [|done].
      intros H; inversion H; subst; clear H.
      apply unchecked_Double_Some in E0 as (l & Hl & H0).
      apply unchecked_Double_Some in E1 as (l1 & Hl1 & H1).
      apply unchecked_Double_Some in E2 as (l2 & Hl2 & H2).
      rewrite Hl in Hl1, Hl2. inversion Hl1; inversion Hl2; subst l1 l2.
      destruct l as [|e0 [|e1 [|e2 rest]]]; try done.
      cbn in H0, H1, H2. inversion H0; inversion H1; inversion H2; subst.
      by exists file, level, vx, vy, vz, rest.
    + intros (file & level & vx & vy & vz & rest & -> & -> & -> & ->).
      reflexivity.
  - intros message. split.
    + destruct (os_Open name) as [e|file] eqn:Ho.
      { intros H; inversion H. exists e. split; [done|by left]. }
      destruct (nbt_Read file) as [e|level] eqn:Hr.
      { intros H; inversion H. exists e. split; [done|]. right.
        by exists file. }
      cbv zeta.
      destruct (unchecked_Double _ 0); [|done].
      destruct (unchecked_Double _ 1); [|done].
      by destruct (unchecked_Double _ 2).
    + intros (e & -> & [->|(file & -> & ->)]); reflexivity.
Qed.

(** X21. On a level that opens and decodes, [loadStartPosition] assigns
    the position that [absXyzFromNbt] returns without error for a tag with
    the same value at its path, and panics wherever [absXyzFromNbt] returns
    [BadType] or panics: the later function is the checked form of the
    earlier read. *)
Theorem loadStartPosition_absXyzFromNbt (worldPath : string) (file : File)
    (level : NamedTag) (tag : ITag) (path : string) :
  os_Open (path_Join worldPath "level.dat") = inr file ->
  nbt_Read file = inr level ->
  ITag_Lookup tag path = Lookup level "/Data/Player/Pos" ->
  loadStartPosition worldPath
  = match absXyzFromNbt tag path with
    | Returned pos None =>
        Assigned (XYZ_of (AbsoluteCoord_of (absX pos))
                         (AbsoluteCoord_of (absY pos))
                         (AbsoluteCoord_of (absZ pos)))
    | _ => StartPanicked
    end.
Proof.
  intros Hopen Hread Hsame.
  unfold loadStartPosition, absXyzFromNbt.
  rewrite Hopen, Hread, Hsame.
  destruct (Lookup level "/Data/Player/Pos") as [[| | | | | | | |l|]|];
    try reflexivity.
  cbn [as_List unchecked_Double].
  destruct l as [|e0 [|e1 [|e2 rest]]]; cbn [lookup list_lookup].
  - reflexivity.
  - by destruct e0.
  - by destruct e0, e1.
  - by destruct e0, e1, e2.
Qed.

End StartPosition.

(** ** On the sample level files *)

Import WorldSample MoreSamples.

(** X21 on the level of [world], whose position list is that of the
    sample player file. *)
Lemma loadStartPosition_absXyzFromNbt_witness :
  loadStartPosition (S := start_collaborators) "world" = Assigned (1, 64, -4).
Proof.
  exact (loadStartPosition_absXyzFromNbt (C := WorldSample.collaborators)
           (S := start_collaborators) "world"
           [("/Data/Player/Pos",
             List [Double 1.5; Double 64; Double (-3.25)])]
           [("/Data/Player/Pos",
             List [Double 1.5; Double 64; Double (-3.25)])]
           player_ok "/Pos" eq_refl eq_refl eq_refl).
Defined.

(** The other outcomes: a position list with an integer and a level
    without a position panic, a missing file exits. *)
Lemma loadStartPosition_other_levels :
  loadStartPosition (S := start_collaborators) "mixed" = StartPanicked
  /\ loadStartPosition (S := start_collaborators) "empty" = StartPanicked
  /\ loadStartPosition (S := start_collaborators) "none"
     = Exited "loadStartPosition: no such file or directory".
Proof. by repeat split. Qed.

End StartPositionFacts.
